(** * The [did] package: DID values, the [did:key] codec, the anchor
      resolver and the trust context, embedded from the Go sources.

    Layout of the development:
    - [Strings]: the three functions of Go's [strings] package the code calls;
    - [Did]: [did.go] (the [DID] value and [FromString]);
    - [Varint], [Base58], [Multibase]: the encoders the key codec is built on;
    - [Crypto]: public keys as the codec sees them;
    - [Key]: [key.go] ([FormatKeyURI], [ParseKeyURI], ...);
    - [Resolver]: [anchor.go];
    - [TrustContext]: [context.go] (the trust context and its sweep);
    - [Reference]: small instances of the library parameters, for closed
      examples.

    The package's own functions are transcribed statement by statement.  The
    modules it imports (go-varint, base58, go-multibase, the key types of
    libp2p and of the [crypto] package) are not part of the package: varint
    and base58 are written out as the functions they compute, the decoders of
    the other multibase alphabets and the secp256k1 point parser are
    parameters ([BaseCodecs], [Curve]).

    Run-time panics (an index or a write out of range) are [None] where a
    property speaks of a function never failing; errors are values of
    [error]. *)

From Stdlib Require Import NArith ZArith Lia Ascii String Strings.Byte List Bool.
From stdpp Require Import base option list strings gmap.

Local Open Scope string_scope.

(** ** Results of fallible Go functions: [(v, nil)] or [(_, err)]. *)

Inductive result (E A : Type) : Type :=
| Ok (a : A)
| Err (e : E).
Arguments Ok {E A} a.
Arguments Err {E A} e.

Definition is_ok {E A} (r : result E A) : bool :=
  match r with Ok _ => true | Err _ => false end.

(** ** Go's [strings] package, on byte strings. *)

Module Strings.

(** [strings.HasPrefix(s, prefix)]. *)
Fixpoint HasPrefix (s prefix : string) {struct prefix} : bool :=
  match prefix with
  | EmptyString => true
  | String p prefix' =>
      match s with
      | EmptyString => false
      | String c s' => if Ascii.eqb c p then HasPrefix s' prefix' else false
      end
  end.

Fixpoint drop_bytes (n : nat) (s : string) : string :=
  match n, s with
  | O, _ => s
  | S n', String _ s' => drop_bytes n' s'
  | S _, EmptyString => EmptyString
  end.

(** [strings.TrimPrefix(s, prefix)]: [s[len(prefix):]] when [s] starts with
    [prefix], and [s] itself otherwise. *)
Definition TrimPrefix (s prefix : string) : string :=
  if HasPrefix s prefix then drop_bytes (String.length prefix) s else s.

(** [strings.Split(s, sep)] for a one-byte separator, the only way the
    package calls it ([":"]).  The result is never empty: a string without
    the separator, the empty string included, is returned as one segment. *)
Fixpoint Split (s : string) (sep : ascii) : list string :=
  match s with
  | EmptyString => [EmptyString]
  | String c s' =>
      if Ascii.eqb c sep then EmptyString :: Split s' sep
      else match Split s' sep with
           | [] => [String c EmptyString]
           | p :: ps => String c p :: ps
           end
  end.

End Strings.

(** ** Error values of the package ([errors.go]) and of its callees. *)

Inductive Encoding : Type :=
| Identity | Base2 | Base8 | Base10 | Base16 | Base16Upper
| Base32 | Base32Upper | Base32pad | Base32padUpper
| Base32hex | Base32hexUpper | Base32hexPad | Base32hexPadUpper
| Base36 | Base36Upper | Base58BTC | Base58Flickr
| Base64 | Base64url | Base64pad | Base64urlPad | Base256Emoji.

#[global] Instance Encoding_eq_dec : EqDecision Encoding.
Proof. solve_decision. Defined.

Inductive error : Type :=
(* errors.go *)
| ErrInvalidDID
| ErrInvalidKeyType
| ErrInvalidSignature
| ErrNoProvider
| ErrNoAnchorMethod
| ErrHardwareKey
(* key.go: errors made on the spot by fmt.Errorf *)
| ErrNotKeyType                      (* "decentralized identifier is not a 'key' type" *)
| ErrUnexpectedMultibase (enc : Encoding) (* "unexpected multibase encoding: %s" *)
(* errors of the libraries the codec calls *)
| ErrMultibaseEmpty                  (* multibase: zero length string *)
| ErrUnsupportedEncoding             (* multibase: marker of no known base *)
| ErrBase58Empty                     (* base58: zero length string *)
| ErrBase58HighBit                   (* base58: high-bit set on invalid digit *)
| ErrBase58Digit (c : ascii)         (* base58: invalid base58 digit *)
| ErrBaseDecode (enc : Encoding)     (* a decoder of another base rejects its input *)
| ErrVarintOverflow
| ErrVarintNotMinimal
| ErrVarintUnderflow
| ErrEd25519Size                     (* "expect ed25519 public key data size to be 32" *)
| ErrMalformedPoint                  (* secp256k1: the bytes are no public key *)
(* errors.New(msg) and fmt.Errorf(msg) of a caller or a stub *)
| ErrMessage (msg : string)
(* fmt.Errorf("<msg>: %w", err) and fmt.Errorf("%w: <msg>", err) *)
| Wrap (msg : string) (cause : error).

(** [errors.Is(err, target)] for the sentinel errors above: the chain of
    [%w] causes is searched for [target]. *)
Fixpoint errors_Is (target : error -> bool) (err : error) : bool :=
  target err ||
  match err with
  | Wrap _ cause => errors_Is target cause
  | _ => false
  end.

Definition isErrInvalidDID (e : error) : bool :=
  match e with ErrInvalidDID => true | _ => false end.

Abbreviation res := (result error).

(** ** [did.go] *)

Module Did.

Record DID : Type := { URI : string }.

#[global] Instance DID_eq_dec : EqDecision DID.
Proof. solve_decision. Defined.

#[global] Instance DID_countable : Countable DID :=
  inj_countable' URI Build_DID (fun d => match d with Build_DID _ => eq_refl end).

(** [DID{}], the zero value. *)
Definition zero : DID := {| URI := "" |}.

Definition Equal (did other : DID) : bool := String.eqb (URI did) (URI other).
Definition Empty (did : DID) : bool := String.eqb (URI did) "".
Definition String_ (did : DID) : string := URI did.

(** Indexing [parts[i]] panics when [i] is out of range; [None] stands for
    the panic, so that the absence of panics is a theorem, not a modelling
    choice. *)
Definition Method (did : DID) : option string :=
  let parts := Strings.Split (URI did) ":" in
  if Nat.eqb (length parts) 3 then parts !! 1%nat else Some "".

Definition Identifier (did : DID) : option string :=
  let parts := Strings.Split (URI did) ":" in
  if Nat.eqb (length parts) 3 then parts !! 2%nat else Some "".

(** [for _, part := range parts { if part == "" { return DID{}, err } }] *)
Fixpoint has_empty_part (parts : list string) : bool :=
  match parts with
  | [] => false
  | part :: rest => if String.eqb part "" then true else has_empty_part rest
  end.

(** [FromString] as src/did.go has it (lines 41-58): the segment count is
    compared with 2. *)
Definition FromString (s : string) : res DID :=
  if negb (String.eqb s "") then
    let parts := Strings.Split s ":" in
    if Nat.eqb (length parts) 2 then Err ErrInvalidDID
    else if has_empty_part parts then Err ErrInvalidDID
    else Ok {| URI := s |}
  else Ok {| URI := s |}.

(** [FromString] as the second copy of did.go has it (src/ledger.go, lines
    221-240): the segment count is compared with 3, and the error wraps
    [ErrInvalidDID] with the offending string. *)
Definition FromString_rev (s : string) : res DID :=
  if negb (String.eqb s "") then
    let parts := Strings.Split s ":" in
    if negb (Nat.eqb (length parts) 3) then Err (Wrap s ErrInvalidDID)
    else if has_empty_part parts then Err (Wrap s ErrInvalidDID)
    else Ok {| URI := s |}
  else Ok {| URI := s |}.

End Did.
Export Did.

(** ** Byte buffers *)

Abbreviation bytes := (list byte).

(** [byte(x)]: conversion of an unsigned integer to a byte keeps the low
    eight bits. *)
Definition byte_of_N (n : N) : byte :=
  match Byte.of_N (n mod 256) with
  | Some b => b
  | None => x00
  end.

(** [[]byte(s)] and [string(b)]. *)
Definition bytes_of_string (s : string) : bytes :=
  map byte_of_ascii (list_ascii_of_string s).

Definition string_of_bytes (b : bytes) : string :=
  string_of_list_ascii (map ascii_of_byte b).

(** [buf[i] = b]: writing past the end of a slice panics ([None]). *)
Definition store (buf : bytes) (i : nat) (b : byte) : option bytes :=
  if decide (i < length buf)%nat then Some (<[i := b]> buf) else None.

(** [copy(dst, src)]: copies [min(len(dst), len(src))] bytes to the front of
    [dst] and leaves the rest of [dst] as it was. *)
Definition copy (dst src : bytes) : bytes :=
  (take (length dst) src ++ drop (length src) dst)%list.

(** ** go-varint: unsigned LEB128 integers, at most nine bytes, minimally
       encoded. *)

Module Varint.

(** A [uint64] keeps the low 64 bits of every result. *)
Definition u64 (n : N) : N := n mod 2 ^ 64.

(** [UvarintSize(num)], with [bits.Len64] as [N.size]. *)
Definition UvarintSize (num : N) : nat :=
  let bits := N.size num in
  let q := (bits / 7)%N in
  let r := (bits mod 7)%N in
  N.to_nat (if (0 <? r)%N || (q =? 0)%N then q + 1 else q)%N.

(** The loop of [binary.PutUvarint]:
    [for x >= 0x80 { buf[i] = byte(x) | 0x80; x >>= 7; i++ }; buf[i] = byte(x)].
    A 64-bit [x] leaves the loop after at most nine rounds; [fuel] bounds
    the rounds. *)
Fixpoint PutUvarint_from (fuel : nat) (buf : bytes) (x : N) (i : nat)
  : option (bytes * nat) :=
  match fuel with
  | O => None
  | S fuel' =>
      if (0x80 <=? x)%N then
        match store buf i (byte_of_N (N.lor (x mod 256) 0x80)) with
        | Some buf' => PutUvarint_from fuel' buf' (N.shiftr x 7) (S i)
        | None => None
        end
      else
        match store buf i (byte_of_N x) with
        | Some buf' => Some (buf', S i)
        | None => None
        end
  end.

(** [PutUvarint(buf, x)]: the buffer after the write and the number of
    bytes written; [None] is the panic of a buffer that is too short. *)
Definition PutUvarint (buf : bytes) (x : N) : option (bytes * nat) :=
  PutUvarint_from 10 buf (u64 x) 0.

(** The loop of [FromUvarint]: [i] is the index of the byte at the head of
    [buf], [x] the value read so far and [s] the shift of the next group. *)
Fixpoint FromUvarint_from (buf : bytes) (i : nat) (x s : N) : res (N * nat) :=
  match buf with
  | [] => Err ErrVarintUnderflow
  | b :: rest =>
      let bn := Byte.to_N b in
      if (Nat.eqb i 8 && (0x80 <=? bn)%N) || (9 <=? i)%nat then
        Err ErrVarintOverflow
      else if (bn <? 0x80)%N then
        if (bn =? 0)%N && (0 <? s)%N then Err ErrVarintNotMinimal
        else Ok (N.lor x (u64 (N.shiftl bn s)), S i)
      else
        FromUvarint_from rest (S i)
          (N.lor x (u64 (N.shiftl (N.land bn 0x7f) s))) (s + 7)
  end.

(** [FromUvarint(buf)]: the value and the number of bytes it occupies. *)
Definition FromUvarint (buf : bytes) : res (N * nat) :=
  FromUvarint_from buf 0 0 0.

End Varint.

(** ** base58 with the Bitcoin alphabet.

    The encoder writes one ['1'] per leading zero byte and then the digits,
    most significant first, of the number the bytes spell in base 256; the
    decoder is its inverse on the strings over the alphabet. *)

Module Base58.

Definition alphabet : string :=
  "123456789ABCDEFGHJKLMNPQRSTUVWXYZabcdefghijkmnopqrstuvwxyz".

(** [alphabet.encode[d]] *)
Definition encode_digit (d : N) : ascii :=
  match String.get (N.to_nat d) alphabet with
  | Some c => c
  | None => "1"%char
  end.

Fixpoint index_from (c : ascii) (alpha : string) (i : N) : option N :=
  match alpha with
  | EmptyString => None
  | String a alpha' =>
      if Ascii.eqb a c then Some i else index_from c alpha' (i + 1)
  end.

(** [alphabet.decode[c]], with [None] for the table's [-1]. *)
Definition decode_digit (c : ascii) : option N := index_from c alphabet 0.

(** The number a digit string spells, most significant digit first. *)
Definition value (base : N) (digits : list N) : N :=
  fold_left (fun acc d => acc * base + d)%N digits 0%N.

(** The digits of [n], most significant first and none for zero, prepended
    to [acc]. *)
Fixpoint digits_onto (base : N) (fuel : nat) (n : N) (acc : list N) : list N :=
  match fuel with
  | O => acc
  | S fuel' =>
      if (n =? 0)%N then acc
      else digits_onto base fuel' (n / base) ((n mod base)%N :: acc)
  end.

Definition digits (base n : N) : list N :=
  digits_onto base (N.to_nat (N.size n)) n [].

(** A numeral is normal when its first digit, if any, is not zero. *)
Definition normal (ds : list N) : Prop :=
  match ds with
  | [] => True
  | d :: _ => d <> 0%N
  end.

(** [zcount]: the zero bytes at the front of the input. *)
Fixpoint zero_bytes (bin : bytes) : nat :=
  match bin with
  | b :: rest => if (Byte.to_N b =? 0)%N then S (zero_bytes rest) else O
  | [] => O
  end.

(** The zero digits (['1']) at the front of the text. *)
Fixpoint zero_digits (ds : list N) : nat :=
  match ds with
  | d :: rest => if (d =? 0)%N then S (zero_digits rest) else O
  | [] => O
  end.

Definition Encode (bin : bytes) : string :=
  string_of_list_ascii
    (map encode_digit
       (replicate (zero_bytes bin) 0%N
          ++ digits 58 (value 256 (map Byte.to_N bin)))%list).

(** The digit of every character in turn; the first character that is not
    of the alphabet decides the error. *)
Fixpoint decode_digits (str : list ascii) : res (list N) :=
  match str with
  | [] => Ok []
  | c :: rest =>
      if (127 <? N_of_ascii c)%N then Err ErrBase58HighBit
      else match decode_digit c with
           | None => Err (ErrBase58Digit c)
           | Some d =>
               match decode_digits rest with
               | Ok ds => Ok (d :: ds)
               | Err e => Err e
               end
           end
  end.

Definition Decode (str : string) : res bytes :=
  if String.eqb str "" then Err ErrBase58Empty
  else
    match decode_digits (list_ascii_of_string str) with
    | Err e => Err e
    | Ok ds =>
        Ok (replicate (zero_digits ds) x00
              ++ map byte_of_N (digits 256 (value 58 ds)))%list
    end.

End Base58.

(** ** go-multibase: a one-rune marker names the base of the text after it. *)

(** The decoders and encoders of the bases the package never produces.  They
    are parameters of the development: the codec only looks at which base a
    text announces and at whether its decoder accepts it. *)
Class BaseCodecs : Type := {
  encode_base : Encoding -> bytes -> res string;
  decode_base : Encoding -> string -> res bytes;
}.

Module Multibase.

(** The marker table ([Encoding] constants of the library); the marker of
    [Base256Emoji] is the four-byte rune U+1F680 and is handled apart. *)
Definition encoding_of_marker (c : ascii) : option Encoding :=
  match c with
  | "000"%char => Some Identity
  | "0"%char => Some Base2
  | "7"%char => Some Base8
  | "9"%char => Some Base10
  | "f"%char => Some Base16
  | "F"%char => Some Base16Upper
  | "b"%char => Some Base32
  | "B"%char => Some Base32Upper
  | "c"%char => Some Base32pad
  | "C"%char => Some Base32padUpper
  | "v"%char => Some Base32hex
  | "V"%char => Some Base32hexUpper
  | "t"%char => Some Base32hexPad
  | "T"%char => Some Base32hexPadUpper
  | "k"%char => Some Base36
  | "K"%char => Some Base36Upper
  | "z"%char => Some Base58BTC
  | "Z"%char => Some Base58Flickr
  | "m"%char => Some Base64
  | "u"%char => Some Base64url
  | "M"%char => Some Base64pad
  | "U"%char => Some Base64urlPad
  | _ => None
  end.

(** UTF-8 of U+1F680. *)
Definition emoji_marker : string :=
  String "240" (String "159" (String "154" (String "128" EmptyString))).

Section WithCodecs.
Context {codecs : BaseCodecs}.

(** [Encode(base, data)]. *)
Definition Encode (base : Encoding) (data : bytes) : res string :=
  match base with
  | Base58BTC => Ok (String "z" (Base58.Encode data))
  | Identity => Ok (String "000" (string_of_bytes data))
  | _ => encode_base base data
  end.

(** [Decode(data)]: the base the marker names and the decoded bytes. *)
Definition Decode (data : string) : res (Encoding * bytes) :=
  match data with
  | EmptyString => Err ErrMultibaseEmpty
  | String c rest =>
      match encoding_of_marker c with
      | Some Identity => Ok (Identity, bytes_of_string rest)
      | Some Base58BTC =>
          match Base58.Decode rest with
          | Ok b => Ok (Base58BTC, b)
          | Err e => Err e
          end
      | Some enc =>
          match decode_base enc rest with
          | Ok b => Ok (enc, b)
          | Err e => Err e
          end
      | None =>
          if Strings.HasPrefix data emoji_marker then
            match decode_base Base256Emoji
                    (Strings.drop_bytes 4 data) with
            | Ok b => Ok (Base256Emoji, b)
            | Err e => Err e
            end
          else Err ErrUnsupportedEncoding
      end
  end.

End WithCodecs.

End Multibase.

(** ** Public keys, as the [crypto] package hands them to the codec. *)

(** [pb.KeyType]: the key types of libp2p and the Ethereum-style type the
    [crypto] package adds; any other number is a type the codec does not
    know. *)
Inductive KeyType : Type :=
| RSA | Ed25519 | Secp256k1 | ECDSA | Eth
| OtherKeyType (code : Z).

(** The secp256k1 package: curve points, their parser and their compressed
    serialization.  The curve arithmetic is a parameter of the development. *)
Class Curve : Type := {
  Point : Type;
  ParsePubKey : bytes -> option Point;
  SerializeCompressed : Point -> bytes;
}.

Module Crypto.
Section WithCurve.
Context {curve : Curve}.

(** A [crypto.PubKey] is an interface value.  Three implementations are
    the keys of the libraries; [ForeignPubKey] is any other implementation,
    given by what its [Type()] and [Raw()] methods return. *)
Inductive PubKey : Type :=
| Ed25519PublicKey (k : bytes)
| Secp256k1PublicKey (p : Point)
| EthPublicKey (p : Point)
| ForeignPubKey (ty : KeyType) (raw : res bytes).

Definition Type_ (pubk : PubKey) : KeyType :=
  match pubk with
  | Ed25519PublicKey _ => Ed25519
  | Secp256k1PublicKey _ => Secp256k1
  | EthPublicKey _ => Eth
  | ForeignPubKey ty _ => ty
  end.

Definition Raw (pubk : PubKey) : res bytes :=
  match pubk with
  | Ed25519PublicKey k => Ok k
  | Secp256k1PublicKey p => Ok (SerializeCompressed p)
  | EthPublicKey p => Ok (SerializeCompressed p)
  | ForeignPubKey _ raw => raw
  end.

Definition UnmarshalEd25519PublicKey (data : bytes) : res PubKey :=
  if Nat.eqb (length data) 32 then Ok (Ed25519PublicKey data)
  else Err ErrEd25519Size.

Definition UnmarshalSecp256k1PublicKey (data : bytes) : res PubKey :=
  match ParsePubKey data with
  | Some p => Ok (Secp256k1PublicKey p)
  | None => Err ErrMalformedPoint
  end.

Definition UnmarshalEthPublicKey (data : bytes) : res PubKey :=
  match ParsePubKey data with
  | Some p => Ok (EthPublicKey p)
  | None => Err ErrMalformedPoint
  end.

(** The raw bytes of a key of a supported type, as the libraries make them:
    32 bytes for Ed25519, and for the two curve types the compressed
    serialization of a point, which the parser reads back as that point. *)
Definition canonical_raw (ty : KeyType) (raw : bytes) : Prop :=
  match ty with
  | Ed25519 => length raw = 32%nat
  | Secp256k1 | Eth =>
      exists p, ParsePubKey raw = Some p /\ SerializeCompressed p = raw
  | _ => False
  end.

End WithCurve.
End Crypto.
Export Crypto.

(** ** Values with the lines they send to the package logger. *)

Record Logged (A : Type) : Type := { value : A; logs : list string }.
Arguments value {A} _.
Arguments logs {A} _.

Definition quiet {A} (a : A) : Logged A := {| value := a; logs := [] |}.

(** ** [key.go] *)

(** The bytes of the varint of each codec tag: what [PutUvarint] writes for
    the three constants of key.go ([FormatKeyURI_supported] below). *)
Definition tag_bytes (ty : KeyType) : option bytes :=
  match ty with
  | Ed25519 => Some [xed; x01]
  | Secp256k1 => Some [xe7; x01]
  | Eth => Some [x81; xde; x03]
  | _ => None
  end.

Module Key.
Section WithLibraries.
Context {curve : Curve} {codecs : BaseCodecs}.

Record Anchor : Type := { anchor_did : DID; anchor_pubk : PubKey }.

(** [NewAnchor(did, pubk)], a [PublicKeyAnchor]. *)
Definition NewAnchor (did : DID) (pubk : PubKey) : Anchor :=
  {| anchor_did := did; anchor_pubk := pubk |}.

Definition multicodecKindEd25519PubKey : N := 0xed.
Definition multicodecKindSecp256k1PubKey : N := 0xe7.
Definition multicodecKindEthPubKey : N := 0xef01.

Definition keyPrefix : string := "did:key".

(** [FormatKeyURI(pubk)].  The value is [None] when the function panics
    (a write past the end of [data]), so that its totality is proved and
    not assumed. *)
Definition FormatKeyURI (pubk : PubKey) : Logged (option string) :=
  match Raw pubk with
  | Err _ => quiet (Some "")
  | Ok raw =>
      match
        match Type_ pubk with
        | Ed25519 => Some multicodecKindEd25519PubKey
        | Secp256k1 => Some multicodecKindSecp256k1PubKey
        | Eth => Some multicodecKindEthPubKey
        | _ => None
        end
      with
      | None =>
          (* log.Errorf("unsupported key type: %d", t), with t still 0 *)
          {| value := Some ""; logs := ["unsupported key type: 0"] |}
      | Some t =>
          let size := Varint.UvarintSize t in
          let data := replicate (size + length raw) x00 in
          match Varint.PutUvarint data t with
          | None => quiet None
          | Some (data, n) =>
              let data := (take n data ++ copy (drop n data) raw)%list in
              match Multibase.Encode Base58BTC data with
              | Err _ => quiet (Some "")
              | Ok b58BKeyStr =>
                  quiet (Some (keyPrefix ++ ":" ++ b58BKeyStr))
              end
          end
      end
  end.

(** [ParseKeyURI(uri)].  The slice [data[n:]] is in range, since
    [FromUvarint] returns the number of bytes it has read from [data]. *)
Definition ParseKeyURI (uri : string) : res PubKey :=
  if negb (Strings.HasPrefix uri keyPrefix) then Err ErrNotKeyType
  else
    let uri := Strings.TrimPrefix uri (keyPrefix ++ ":") in
    match Multibase.Decode uri with
    | Err e => Err (Wrap "decoding multibase" e)
    | Ok (enc, data) =>
        if negb (bool_decide (enc = Base58BTC)) then
          Err (ErrUnexpectedMultibase enc)
        else
          match Varint.FromUvarint data with
          | Err e => Err e
          | Ok (keyType, n) =>
              if (keyType =? multicodecKindEd25519PubKey)%N then
                UnmarshalEd25519PublicKey (drop n data)
              else if (keyType =? multicodecKindSecp256k1PubKey)%N then
                UnmarshalSecp256k1PublicKey (drop n data)
              else if (keyType =? multicodecKindEthPubKey)%N then
                UnmarshalEthPublicKey (drop n data)
              else Err ErrInvalidKeyType
          end
    end.

(** [FromPublicKey(pubk)]: whatever [FormatKeyURI] returns becomes the
    URI. *)
Definition FromPublicKey (pubk : PubKey) : Logged (option DID) :=
  let uri := FormatKeyURI pubk in
  {| value := option_map (fun u => {| URI := u |}) (value uri);
     logs := logs uri |}.

(** [PublicKeyFromDID(did)].  [Method] never panics, so comparing its
    result with [Some "key"] is the comparison of the source. *)
Definition PublicKeyFromDID (did : DID) : res PubKey :=
  if negb (bool_decide (Method did = Some "key")) then Err ErrInvalidDID
  else
    match ParseKeyURI (URI did) with
    | Err e => Err (Wrap "parsing did key identifier" e)
    | Ok pubk => Ok pubk
    end.

End WithLibraries.
End Key.
Export Key.

(** On a URI written as [did:key:] followed by a payload, the prefix test of
    [ParseKeyURI] passes and [TrimPrefix] leaves the payload. *)
Ltac strip_did_key :=
  match goal with
  | |- context [Strings.HasPrefix ("did:key:" ++ ?p) keyPrefix] =>
      change (Strings.HasPrefix ("did:key:" ++ p) keyPrefix) with true;
      change (Strings.TrimPrefix ("did:key:" ++ p) (keyPrefix ++ ":")) with p;
      cbn [negb]
  end.

(** ** [anchor.go] *)

Module Resolver.
Section WithLibraries.
Context {curve : Curve} {codecs : BaseCodecs}.

Definition GetAnchorFunc : Type := DID -> res Anchor.

Definition makeKeyAnchor (did : DID) : res Anchor :=
  match PublicKeyFromDID did with
  | Err e => Err e
  | Ok pubk => Ok (NewAnchor did pubk)
  end.

(** The registry [anchorMethods] after [init()]. *)
Definition init_anchorMethods : gmap string GetAnchorFunc :=
  {[ "key" := makeKeyAnchor ]}.

(** [GetAnchorForDID(did)], over the registry as it is at the call. *)
Definition GetAnchorForDID (anchorMethods : gmap string GetAnchorFunc)
    (did : DID) : res Anchor :=
  match Method did ≫= (fun m => anchorMethods !! m) with
  | None => Err ErrNoAnchorMethod
  | Some makeAnchor => makeAnchor did
  end.

End WithLibraries.
End Resolver.
Export Resolver.

(** ** [context.go]: the trust context.

    The methods run one at a time here: each takes the mutex for its whole
    critical section, so a sequential run is a run of the critical sections in
    some order.  An [anchorEntry] is reached only through the map that owns
    it, so the map holds entries by value and an assignment to
    [entry.expire] is an update of the map. *)

Module TrustContext.
Section WithLibraries.
Context {curve : Curve} {codecs : BaseCodecs} {PrivKey : Type}.

(** Instants and durations, in nanoseconds. *)
Definition Time : Type := Z.
Definition Duration : Type := Z.

Definition anchorEntryTTL : Duration := (3600 * 1000000000)%Z.

(** [t.Add(d)] and [t.Before(u)]. *)
Definition Add (t : Time) (d : Duration) : Time := (t + d)%Z.
Definition Before (t u : Time) : bool := (t <? u)%Z.

(** A [PrivateKeyProvider]. *)
Record Provider : Type := { provider_did : DID; provider_privk : PrivKey }.

Record anchorEntry : Type := { anchor : Anchor; expire : Time }.

Record BasicTrustContext : Type := {
  anchors : gmap DID anchorEntry;
  providers : gmap DID Provider;
  (* the interval of the running sweep loop, when [stop] is not nil *)
  stop : option Duration;
}.

(** What a method can read and change: the context it is called on, the
    package-level registry of anchor methods, and the clock.  [clock]
    gives the successive readings of [time.Now()] and [reads] counts the
    readings made so far; [resolved] records, in order, the DIDs the
    anchor resolver has been called with. *)
Record World : Type := {
  ctx : BasicTrustContext;
  anchorMethods : gmap string GetAnchorFunc;
  clock : nat -> Time;
  reads : nat;
  resolved : list DID;
}.

Definition M (A : Type) : Type := World -> A * World.

Definition ret {A} (a : A) : M A := fun w => (a, w).

Definition bind {A B} (m : M A) (k : A -> M B) : M B :=
  fun w => let (a, w') := m w in k a w'.

Notation "x <~ m ;; k" := (bind m (fun x => k))
  (at level 100, m at next level, right associativity, only parsing).

Definition get_ctx : M BasicTrustContext := fun w => (ctx w, w).

Definition set_anchors (m : gmap DID anchorEntry) : M unit :=
  fun w =>
    (tt, {| ctx := {| anchors := m; providers := providers (ctx w);
                      stop := stop (ctx w) |};
            anchorMethods := anchorMethods w; clock := clock w;
            reads := reads w; resolved := resolved w |}).

Definition set_providers (m : gmap DID Provider) : M unit :=
  fun w =>
    (tt, {| ctx := {| anchors := anchors (ctx w); providers := m;
                      stop := stop (ctx w) |};
            anchorMethods := anchorMethods w; clock := clock w;
            reads := reads w; resolved := resolved w |}).

(** [time.Now()] *)
Definition time_Now : M Time :=
  fun w =>
    (clock w (reads w),
     {| ctx := ctx w; anchorMethods := anchorMethods w; clock := clock w;
        reads := S (reads w); resolved := resolved w |}).

(** The call [GetAnchorForDID(did)], on the registry of the moment. *)
Definition call_GetAnchorForDID (did : DID) : M (res Anchor) :=
  fun w =>
    (GetAnchorForDID (anchorMethods w) did,
     {| ctx := ctx w; anchorMethods := anchorMethods w; clock := clock w;
        reads := reads w; resolved := (resolved w ++ [did])%list |}).

(** [NewTrustContext()] *)
Definition NewTrustContext : BasicTrustContext :=
  {| anchors := ∅; providers := ∅; stop := None |}.

(** [Anchors()] and [Providers()]: the keys, in the order of the map's
    enumeration. *)
Definition Anchors : M (list DID) :=
  c <~ get_ctx ;; ret (map fst (map_to_list (anchors c))).

Definition Providers : M (list DID) :=
  c <~ get_ctx ;; ret (map fst (map_to_list (providers c))).

Definition getAnchor (did : DID) : M (option Anchor) :=
  c <~ get_ctx ;;
  match anchors c !! did with
  | Some entry =>
      now <~ time_Now ;;
      _ <~ set_anchors
             (<[did := {| anchor := anchor entry;
                          expire := Add now anchorEntryTTL |}]> (anchors c)) ;;
      ret (Some (anchor entry))
  | None => ret None
  end.

Definition AddAnchor (a : Anchor) : M unit :=
  c <~ get_ctx ;;
  now <~ time_Now ;;
  set_anchors
    (<[anchor_did a := {| anchor := a;
                          expire := Add now anchorEntryTTL |}]> (anchors c)).

Definition GetAnchor (did : DID) : M (res Anchor) :=
  hit <~ getAnchor did ;;
  match hit with
  | Some a => ret (Ok a)
  | None =>
      r <~ call_GetAnchorForDID did ;;
      match r with
      | Err err => ret (Err (Wrap "get anchor for did" err))
      | Ok a => _ <~ AddAnchor a ;; ret (Ok a)
      end
  end.

Definition GetProvider (did : DID) : M (res Provider) :=
  c <~ get_ctx ;;
  match providers c !! did with
  | None => ret (Err ErrNoProvider)
  | Some provider => ret (Ok provider)
  end.

Definition AddProvider (provider : Provider) : M unit :=
  c <~ get_ctx ;;
  set_providers (<[provider_did provider := provider]> (providers c)).

(** The body of the loop of [gcAnchorEntries]: the pairs still to be
    enumerated and the map as it is now.  Only the pair at hand is ever
    deleted, so every pair of the map at the start is enumerated once. *)
Fixpoint sweep (now : Time) (todo : list (DID * anchorEntry))
    (m : gmap DID anchorEntry) : gmap DID anchorEntry :=
  match todo with
  | [] => m
  | (k, e) :: rest =>
      if Before (expire e) now then sweep now rest (delete k m)
      else sweep now rest m
  end.

Definition gcAnchorEntries : M unit :=
  c <~ get_ctx ;;
  now <~ time_Now ;;
  set_anchors (sweep now (map_to_list (anchors c)) (anchors c)).

End WithLibraries.
End TrustContext.
Export TrustContext.

(** ** Reference instances of the library parameters, for closed examples. *)

Module Reference.

(** The alphabet of [base64.RawURLEncoding]. *)
Definition base64url_alphabet : string :=
  "ABCDEFGHIJKLMNOPQRSTUVWXYZabcdefghijklmnopqrstuvwxyz0123456789-_".

Fixpoint base64url_values (str : list ascii) : option (list N) :=
  match str with
  | [] => Some []
  | c :: rest =>
      match Base58.index_from c base64url_alphabet 0, base64url_values rest with
      | Some v, Some vs => Some (v :: vs)
      | _, _ => None
      end
  end.

(** Four characters carry three bytes; a last group of three or two
    characters carries two bytes or one. *)
Fixpoint base64url_bytes (vs : list N) : option (list N) :=
  match vs with
  | [] => Some []
  | [ _ ] => None
  | [a; b] => Some [((a * 64 + b) / 16)%N]
  | [a; b; c] =>
      let n := ((a * 64 + b) * 64 + c)%N in
      Some [(n / 1024)%N; ((n / 4) mod 256)%N]
  | a :: b :: c :: d :: rest =>
      let n := (((a * 64 + b) * 64 + c) * 64 + d)%N in
      match base64url_bytes rest with
      | Some bs =>
          Some ((n / 65536)%N :: ((n / 256) mod 256)%N :: (n mod 256)%N :: bs)
      | None => None
      end
  end.

Definition base64url_decode (s : string) : res bytes :=
  match base64url_values (list_ascii_of_string s) ≫= base64url_bytes with
  | Some bs => Ok (map byte_of_N bs)
  | None => Err (ErrBaseDecode Base64url)
  end.

(** Codecs that know unpadded URL-safe base 64 and refuse the other
    bases. *)
#[export] Instance codecs : BaseCodecs := {|
  encode_base enc _ := Err (ErrBaseDecode enc);
  decode_base enc s :=
    match enc with
    | Base64url => base64url_decode s
    | _ => Err (ErrBaseDecode enc)
    end;
|}.

(** A curve library that checks the shape of a compressed point (33 bytes,
    the first one 2 or 3) and nothing of the curve equation; a point is the
    byte string itself. *)
#[export] Instance curve : Curve := {|
  Point := bytes;
  ParsePubKey data :=
    match data with
    | b :: _ =>
        if Nat.eqb (length data) 33
           && ((Byte.to_N b =? 2)%N || (Byte.to_N b =? 3)%N)
        then Some data else None
    | [] => None
    end;
  SerializeCompressed p := p;
|}.

(** The compressed generator of secp256k1 (the constant [generatorHex] of
    the ledger tests). *)
Definition generator : bytes :=
  [x02; x79; xbe; x66; x7e; xf9; xdc; xbb; xac; x55; xa0; x62; x95; xce;
   x87; x0b; x07; x02; x9b; xfc; xdb; x2d; xce; x28; xd9; x59; xf2; x81;
   x5b; x16; xf8; x17; x98].

(** The stub keys of the tests: [bogusKey] has an unknown type and
    [badRawKey] a failing [Raw()]. *)
Definition bogusKey : PubKey :=
  ForeignPubKey (OtherKeyType 0xaa) (Ok [x01; x02; x03]).

Definition badRawKey : PubKey :=
  ForeignPubKey Ed25519 (Err (ErrMessage "raw failure")).

(** The codec over the reference libraries. *)
Definition format_ref : PubKey -> Logged (option string) := FormatKeyURI.
Definition parse_ref : string -> res PubKey := ParseKeyURI.
Definition from_key_ref : PubKey -> Logged (option DID) := FromPublicKey.

(** A world with an empty context, the registry of [init()] and a clock
    that reads [1000 * (n + 1)] at its [n]-th reading. *)
Definition world0 : World (PrivKey := unit) :=
  {| ctx := NewTrustContext;
     anchorMethods := init_anchorMethods;
     clock := fun n => (1000 * (Z.of_nat n + 1))%Z;
     reads := 0;
     resolved := [] |}.

(** Two DIDs: one of a method without resolver, and the DID of the Ed25519
    key whose 32 bytes are all 7. *)
Definition did_web : DID := {| URI := "did:web:example.com" |}.

Definition key7 : PubKey := Ed25519PublicKey (replicate 32 x07).

Definition did_key7 : DID :=
  {| URI := "did:key:z6Mkevh7bMWWUda468bFjfFGtDxLXgkG8L46bsaXEwHD9Z3L" |}.

(** The Secp256k1 key of the generator. *)
Definition secp_generator : PubKey :=
  Secp256k1PublicKey (generator : Point (Curve := curve)).

(** [world0] after a first [GetAnchor(did_key7)]. *)
Definition world1 : World (PrivKey := unit) := snd (GetAnchor did_key7 world0).

(** A context with three anchors that expire at 500, 1000 and 5000, and one
    provider; the clock of [world0] reads 1000 first. *)
Definition did_a : DID := {| URI := "did:key:a" |}.
Definition did_b : DID := {| URI := "did:key:b" |}.
Definition did_c : DID := {| URI := "did:key:c" |}.

Definition entry_at (d : DID) (t : Time) : anchorEntry :=
  {| anchor := NewAnchor d key7; expire := t |}.

Definition world3 : World (PrivKey := unit) :=
  {| ctx := {| anchors := <[did_a := entry_at did_a 500%Z]>
                            (<[did_b := entry_at did_b 1000%Z]>
                               (<[did_c := entry_at did_c 5000%Z]> ∅));
               providers := {[ did_a := {| provider_did := did_a;
                                           provider_privk := tt |} ]};
               stop := None |};
     anchorMethods := init_anchorMethods;
     clock := clock world0;
     reads := 0;
     resolved := [] |}.

End Reference.

(** ** Further functions of [key.go] and notions for their properties *)

(** A string without a colon: a single segment for [strings.Split(s, ":")]. *)
Definition colon_free (s : string) : Prop :=
  Forall (fun c => c <> ":"%char) (list_ascii_of_string s).

Module KeyAnchors.
Section WithLibraries.
Context {curve : Curve} {codecs : BaseCodecs}.

(** [AnchorFromPublicKey(pubk)]; its error result is always [nil]. *)
Definition AnchorFromPublicKey (pubk : PubKey) : Logged (option Anchor) :=
  let did := FromPublicKey pubk in
  {| value := option_map (fun d => NewAnchor d pubk) (value did);
     logs := logs did |}.

End WithLibraries.
End KeyAnchors.
Export KeyAnchors.

(** * Properties *)

(** ** [did.go] *)

Lemma Split_nonempty (s : string) (sep : ascii) : Strings.Split s sep <> [].
Proof.
  destruct s as [|c s]; simpl; [discriminate|].
  destruct (Ascii.eqb c sep); [discriminate|].
  destruct (Strings.Split s sep); discriminate.
Qed.

Lemma has_empty_part_elem (parts : list string) :
  has_empty_part parts = true <-> "" ∈ parts.
Proof.
  induction parts as [|p ps IH]; simpl.
  - split; [discriminate | intros H; inversion H].
  - destruct (String.eqb_spec p "") as [->|Hne].
    + split; [intros _; left | reflexivity].
    + rewrite IH. split; [intros H; right; exact H|].
      intros H. inversion H; subst; [contradiction | assumption].
Qed.

(** [Method] and [Identifier] index [parts] only behind the length test, so
    neither can panic. *)
Lemma Method_total (d : DID) : is_Some (Method d).
Proof.
  unfold Method. destruct (Nat.eqb_spec (length (Strings.Split (URI d) ":")) 3) as [H|H].
  - apply lookup_lt_is_Some. lia.
  - eexists; reflexivity.
Qed.

Lemma Identifier_total (d : DID) : is_Some (Identifier d).
Proof.
  unfold Identifier. destruct (Nat.eqb_spec (length (Strings.Split (URI d) ":")) 3) as [H|H].
  - apply lookup_lt_is_Some. lia.
  - eexists; reflexivity.
Qed.

(** C9.  For every DID value, [Method()] and [Identifier()] return a string
    (neither panics), and when the URI does not split into exactly three
    colon-separated segments both strings are empty. *)
Theorem Method_Identifier_blank_unless_three_segments (d : DID) :
  exists m i : string,
    Method d = Some m /\ Identifier d = Some i /\
    (length (Strings.Split (URI d) ":") <> 3%nat -> m = "" /\ i = "").
Proof.
  destruct (Method_total d) as [m Hm], (Identifier_total d) as [i Hi].
  exists m, i. repeat split; try assumption;
    unfold Method, Identifier in *;
    destruct (Nat.eqb_spec (length (Strings.Split (URI d) ":")) 3);
    congruence.
Qed.

Lemma Method_Identifier_blank_witness :
  exists m i : string,
    Method {| URI := "did:key" |} = Some m /\
    Identifier {| URI := "did:key" |} = Some i /\
    (length (Strings.Split (URI {| URI := "did:key" |}) ":") <> 3%nat ->
     m = "" /\ i = "").
Proof. exact (Method_Identifier_blank_unless_three_segments {| URI := "did:key" |}). Defined.

(** The malformed URIs of the tests, and the empty DID. *)
Example Method_Identifier_broken :
  Forall (fun uri => Method {| URI := uri |} = Some ""
                     /\ Identifier {| URI := uri |} = Some "")
         [""; "did:key"; "did::"; "notaDID"; "a:b:c:d"] /\
  Method {| URI := "did::" |} = Some "" /\
  Method {| URI := "did:example:123456789abcdefghi" |} = Some "example" /\
  Identifier {| URI := "did:example:123456789abcdefghi" |}
    = Some "123456789abcdefghi".
Proof. repeat constructor. Qed.

(** What [FromString] of src/did.go decides: the only segment count it
    rejects is two. *)
Lemma FromString_rejects_iff (s : string) :
  FromString s = Err ErrInvalidDID <->
  s <> "" /\ (length (Strings.Split s ":") = 2%nat \/ "" ∈ Strings.Split s ":").
Proof.
  unfold FromString. rewrite <- has_empty_part_elem.
  destruct (String.eqb_spec s "") as [->|Hs]; simpl.
  - split; [discriminate | intros [H _]; contradiction].
  - destruct (Nat.eqb_spec (length (Strings.Split s ":")) 2) as [H2|H2].
    + split; auto.
    + destruct (has_empty_part (Strings.Split s ":")).
      * split; auto.
      * split; [discriminate | intros [_ [H|H]]; [contradiction | discriminate]].
Qed.

Lemma FromString_accepts_or_rejects (s : string) :
  FromString s = Err ErrInvalidDID \/ FromString s = Ok {| URI := s |}.
Proof.
  unfold FromString.
  destruct (negb (String.eqb s "")); [|right; reflexivity].
  simpl. destruct (Nat.eqb _ 2); [left; reflexivity|].
  destruct (has_empty_part _); [left | right]; reflexivity.
Qed.

(** C3, at the failing inputs.  [FromString] of src/did.go accepts strings of
    four segments and of one segment, which the claim and the package's own
    test ("FromString should have failed for DID with more than 3 parts")
    require it to reject. *)
Theorem FromString_accepts_wrong_segment_counts :
  FromString "did:example:123:456" = Ok {| URI := "did:example:123:456" |} /\
  length (Strings.Split "did:example:123:456" ":") = 4%nat /\
  FromString "notaDID" = Ok {| URI := "notaDID" |} /\
  length (Strings.Split "notaDID" ":") = 1%nat.
Proof. repeat split. Qed.

(** The part of C3 that src/did.go does satisfy. *)
Lemma FromString_did_go_partial (s : string) :
  (s = "" -> FromString s = Ok Did.zero) /\
  (s <> "" -> "" ∈ Strings.Split s ":" -> FromString s = Err ErrInvalidDID) /\
  (s <> "" -> length (Strings.Split s ":") = 3%nat ->
   "" ∉ Strings.Split s ":" -> FromString s = Ok {| URI := s |}).
Proof.
  repeat split.
  - intros ->. reflexivity.
  - intros Hs He. apply FromString_rejects_iff. auto.
  - intros Hs H3 He.
    destruct (FromString_accepts_or_rejects s) as [H|H]; [|exact H].
    apply FromString_rejects_iff in H as [_ [H|H]]; [lia | contradiction].
Qed.

(** The second copy of [FromString] (src/ledger.go, lines 221-240) does what
    C3 says: a non-empty string is rejected with an error that wraps
    [ErrInvalidDID] unless it has exactly three segments, none of them empty,
    and the empty string gives the zero DID. *)
Lemma FromString_rev_spec (s : string) :
  (s = "" -> FromString_rev s = Ok Did.zero) /\
  (s <> "" ->
   if bool_decide (length (Strings.Split s ":") = 3%nat /\ "" ∉ Strings.Split s ":")
   then FromString_rev s = Ok {| URI := s |}
   else exists e, FromString_rev s = Err e /\ errors_Is isErrInvalidDID e = true).
Proof.
  split; [intros ->; reflexivity|].
  intros Hs. unfold FromString_rev.
  destruct (String.eqb_spec s "") as [|_]; [contradiction|]. simpl.
  destruct (Nat.eqb_spec (length (Strings.Split s ":")) 3) as [H3|H3]; simpl.
  - destruct (has_empty_part (Strings.Split s ":")) eqn:He.
    + apply has_empty_part_elem in He.
      rewrite bool_decide_eq_false_2 by tauto.
      eexists; split; reflexivity.
    + rewrite bool_decide_eq_true_2; [reflexivity|].
      split; [assumption|]. rewrite <- has_empty_part_elem. congruence.
  - rewrite bool_decide_eq_false_2 by tauto.
    eexists; split; reflexivity.
Qed.

(** ** Buffers *)

Lemma store_in_range (buf : bytes) (i : nat) (b : byte) :
  (i < length buf)%nat -> store buf i b = Some (<[i := b]> buf).
Proof. intros H. unfold store. rewrite decide_True; [reflexivity | exact H]. Qed.

Lemma copy_onto_same_length (dst src : bytes) :
  length dst = length src -> copy dst src = src.
Proof.
  intros H. unfold copy. rewrite H, firstn_all.
  rewrite drop_ge by lia. apply app_nil_r.
Qed.

(** ** [key.go]: the encoder *)

Section KeyCodec.
Context {curve : Curve} {codecs : BaseCodecs}.

Lemma FormatKeyURI_supported (pubk : PubKey) (raw tag : bytes) :
  Raw pubk = Ok raw ->
  tag_bytes (Type_ pubk) = Some tag ->
  FormatKeyURI pubk
  = quiet (Some ("did:key:z" ++ Base58.Encode (tag ++ raw)%list)).
Proof.
  intros Hraw Htag. unfold FormatKeyURI. rewrite Hraw.
  destruct (Type_ pubk); simpl in Htag; try discriminate;
    injection Htag as <-; cbv beta iota;
    match goal with
    | |- context [Varint.UvarintSize ?t] =>
        let v := eval vm_compute in (Varint.UvarintSize t) in
        change (Varint.UvarintSize t) with v
    end;
    unfold Varint.PutUvarint;
    match goal with
    | |- context [Varint.u64 ?t] =>
        let v := eval vm_compute in (Varint.u64 t) in
        change (Varint.u64 t) with v
    end;
    cbn [Nat.add replicate Varint.PutUvarint_from];
    repeat (match goal with
            | |- context [N.leb ?a ?b] =>
                let v := eval vm_compute in (N.leb a b) in
                change (N.leb a b) with v; cbv iota
            | |- context [byte_of_N ?a] =>
                let v := eval vm_compute in (byte_of_N a) in
                change (byte_of_N a) with v
            | |- context [N.shiftr ?a ?b] =>
                let v := eval vm_compute in (N.shiftr a b) in
                change (N.shiftr a b) with v
            | |- context [store ?buf ?i ?b] =>
                rewrite (store_in_range buf i b) by (simpl; lia);
                cbn [list_insert insert]
            end);
    cbn [take drop app];
    rewrite copy_onto_same_length by apply length_replicate;
    reflexivity.
Qed.

(** [FormatKeyURI] never panics: the buffer it allocates has room for the
    tag. *)
Lemma FormatKeyURI_total (pubk : PubKey) :
  exists uri, value (FormatKeyURI pubk) = Some uri.
Proof.
  destruct (Raw pubk) as [raw|e] eqn:Hraw.
  - destruct (tag_bytes (Type_ pubk)) as [tag|] eqn:Htag.
    + rewrite (FormatKeyURI_supported pubk raw tag Hraw Htag).
      eexists; reflexivity.
    + unfold FormatKeyURI. rewrite Hraw.
      destruct (Type_ pubk); simpl in Htag; try discriminate;
        eexists; reflexivity.
  - unfold FormatKeyURI. rewrite Hraw. eexists; reflexivity.
Qed.

(** The types without a codec tag are the types other than the three of
    [FormatKeyURI]'s switch. *)
Lemma unsupported_type_no_tag (ty : KeyType) :
  ty <> Ed25519 -> ty <> Secp256k1 -> ty <> Eth -> tag_bytes ty = None.
Proof. destruct ty; simpl; congruence. Qed.

Lemma FormatKeyURI_without_tag (pubk : PubKey) :
  is_ok (Raw pubk) = false \/ tag_bytes (Type_ pubk) = None ->
  value (FormatKeyURI pubk) = Some "".
Proof.
  unfold FormatKeyURI. destruct (Raw pubk) as [raw|e]; [|reflexivity].
  intros [H|H]; [discriminate|].
  destruct (Type_ pubk); simpl in H; try discriminate; reflexivity.
Qed.

(** C4.  A key whose [Raw()] fails, or whose type is none of Ed25519,
    Secp256k1 and Eth, is formatted as the empty string: [FormatKeyURI]
    returns it as an ordinary value, with no panic and no error. *)
Theorem FormatKeyURI_empty_on_unsupported (pubk : PubKey) :
  is_ok (Raw pubk) = false \/
  (Type_ pubk <> Ed25519 /\ Type_ pubk <> Secp256k1 /\ Type_ pubk <> Eth) ->
  value (FormatKeyURI pubk) = Some "".
Proof.
  intros H. unfold FormatKeyURI.
  destruct (Raw pubk) as [raw|e]; [|reflexivity].
  destruct H as [H|(H1 & H2 & H3)]; [discriminate|].
  destruct (Type_ pubk); try reflexivity; contradiction.
Qed.

(** The unknown type is reported to the logger, with the tag still at its
    zero value; a failing [Raw()] is not. *)
Lemma FormatKeyURI_logs (pubk : PubKey) :
  logs (FormatKeyURI pubk)
  = match Raw pubk, tag_bytes (Type_ pubk) with
    | Ok _, None => ["unsupported key type: 0"]
    | _, _ => []
    end.
Proof.
  destruct (Raw pubk) as [raw|e] eqn:Hraw.
  - destruct (tag_bytes (Type_ pubk)) as [tag|] eqn:Htag.
    + rewrite (FormatKeyURI_supported pubk raw tag Hraw Htag). reflexivity.
    + unfold FormatKeyURI. rewrite Hraw.
      destruct (Type_ pubk); simpl in Htag; try discriminate; reflexivity.
  - unfold FormatKeyURI. rewrite Hraw. reflexivity.
Qed.

(** C10.  [FromPublicKey] returns a DID for every public key (it cannot
    panic and has no error result), the URI of that DID is the string
    [FormatKeyURI] returns, and for a key of an unsupported type or with a
    failing [Raw()] it is the empty DID. *)
Theorem FromPublicKey_total_and_empty_on_unsupported (pubk : PubKey) :
  exists d : DID,
    value (FromPublicKey pubk) = Some d /\
    value (FormatKeyURI pubk) = Some (URI d) /\
    (is_ok (Raw pubk) = false \/
     (Type_ pubk <> Ed25519 /\ Type_ pubk <> Secp256k1 /\ Type_ pubk <> Eth) ->
     d = {| URI := "" |} /\ Empty d = true).
Proof.
  destruct (FormatKeyURI_total pubk) as [uri Huri].
  exists {| URI := uri |}. unfold FromPublicKey. simpl. rewrite Huri.
  split; [reflexivity|]. split; [reflexivity|].
  intros H. assert (uri = "") as ->; [|split; reflexivity].
  pose proof (FormatKeyURI_without_tag pubk) as Hempty.
  rewrite Huri in Hempty. injection Hempty as ->; [reflexivity|].
  destruct H as [H|(H1 & H2 & H3)]; [left; exact H|].
  right. apply unsupported_type_no_tag; assumption.
Qed.

End KeyCodec.

Lemma FormatKeyURI_empty_on_unsupported_witness :
  value (Reference.format_ref Reference.bogusKey) = Some "" /\
  value (Reference.format_ref Reference.badRawKey) = Some "".
Proof.
  split.
  - apply (FormatKeyURI_empty_on_unsupported (codecs := Reference.codecs)
             Reference.bogusKey).
    right. repeat split; discriminate.
  - apply (FormatKeyURI_empty_on_unsupported (codecs := Reference.codecs)
             Reference.badRawKey).
    left. reflexivity.
Defined.

Lemma FromPublicKey_total_and_empty_on_unsupported_witness :
  exists d : DID,
    value (Reference.from_key_ref Reference.bogusKey)
    = Some d /\
    value (Reference.format_ref Reference.bogusKey) = Some (URI d) /\
    (is_ok (Raw Reference.bogusKey) = false \/
     (Type_ Reference.bogusKey <> Ed25519 /\
      Type_ Reference.bogusKey <> Secp256k1 /\
      Type_ Reference.bogusKey <> Eth) ->
     d = {| URI := "" |} /\ Empty d = true).
Proof.
  exact (FromPublicKey_total_and_empty_on_unsupported
           (codecs := Reference.codecs) Reference.bogusKey).
Defined.

(** ** [key.go]: the decoder *)

Lemma HasPrefix_app (s prefix : string) :
  Strings.HasPrefix s prefix = true <-> exists rest, s = prefix ++ rest.
Proof.
  revert s. induction prefix as [|p prefix IH]; intros s; simpl.
  - split; [intros _; exists s; reflexivity | reflexivity].
  - destruct s as [|c s].
    + split; [discriminate | intros [rest H]; discriminate].
    + destruct (Ascii.eqb_spec c p) as [->|Hne].
      * rewrite IH. split; intros [rest H]; exists rest.
        -- change (String p s = String p (prefix ++ rest)). f_equal. exact H.
        -- change (String p s = String p (prefix ++ rest)) in H.
           injection H as H. exact H.
      * split; [discriminate|]. intros [rest H].
        change (String c s = String p (prefix ++ rest)) in H.
        injection H as H _. contradiction.
Qed.

Section KeyDecoder.
Context {curve : Curve} {codecs : BaseCodecs}.

(** A URI that does not start with [did:key] is refused at once. *)
Lemma ParseKeyURI_not_key (uri : string) :
  Strings.HasPrefix uri "did:key" = false -> ParseKeyURI uri = Err ErrNotKeyType.
Proof. intros H. unfold ParseKeyURI, keyPrefix. rewrite H. reflexivity. Qed.

(** A URI that starts with [did:key] but not with [did:key:] passes the
    prefix test, keeps its prefix through [TrimPrefix], and is then refused by
    the multibase decoder, for which ['d'] is the marker of no base. *)
Lemma ParseKeyURI_key_without_colon (uri : string) :
  Strings.HasPrefix uri "did:key" = true ->
  Strings.HasPrefix uri "did:key:" = false ->
  ParseKeyURI uri = Err (Wrap "decoding multibase" ErrUnsupportedEncoding).
Proof.
  intros Hkey Hcolon. unfold ParseKeyURI, Strings.TrimPrefix, keyPrefix.
  rewrite Hkey. change ("did:key" ++ ":") with "did:key:". rewrite Hcolon.
  apply HasPrefix_app in Hkey as [rest ->]. reflexivity.
Qed.

(** Every URI without the [did:key:] prefix is refused, by one of the two
    errors above. *)
Lemma ParseKeyURI_needs_did_key_colon (uri : string) :
  Strings.HasPrefix uri "did:key:" = false ->
  ParseKeyURI uri = Err ErrNotKeyType \/
  ParseKeyURI uri = Err (Wrap "decoding multibase" ErrUnsupportedEncoding).
Proof.
  intros H. destruct (Strings.HasPrefix uri "did:key") eqn:Hkey.
  - right. apply ParseKeyURI_key_without_colon; assumption.
  - left. apply ParseKeyURI_not_key; assumption.
Qed.

(** C5, at the failing input.  ["did:keyabc"] does not start with
    [did:key:], and yet it is not refused with the invalid-method error: the
    prefix test compares with [did:key] only (key.go, line 175, against line
    179), so the string reaches the multibase decoder and is refused there.
    ["did:web:xyz"] is refused as the claim says. *)
Theorem ParseKeyURI_prefix_test_omits_colon :
  Strings.HasPrefix "did:keyabc" "did:key:" = false /\
  ParseKeyURI "did:keyabc" = Err (Wrap "decoding multibase" ErrUnsupportedEncoding) /\
  ParseKeyURI "did:key" = Err (Wrap "decoding multibase" ErrUnsupportedEncoding) /\
  ParseKeyURI "did:web:xyz" = Err ErrNotKeyType.
Proof. repeat split. Qed.

(** C6.  When the text after [did:key:] decodes as multibase and its marker
    names a base other than base58btc, [ParseKeyURI] fails with the
    unexpected-multibase-encoding error, which names that base. *)
Theorem ParseKeyURI_unexpected_multibase
    (payload : string) (enc : Encoding) (data : bytes) :
  Multibase.Decode payload = Ok (enc, data) ->
  enc <> Base58BTC ->
  ParseKeyURI ("did:key:" ++ payload) = Err (ErrUnexpectedMultibase enc).
Proof.
  intros Hdec Henc. unfold ParseKeyURI. strip_did_key.
  rewrite Hdec. rewrite bool_decide_eq_false_2 by exact Henc. reflexivity.
Qed.

(** C7.  For a base58btc payload whose leading varint parses to [keyType],
    [ParseKeyURI] hands the bytes after the varint to the Ed25519 routine for
    0xed, to the Secp256k1 routine for 0xe7 and to the Eth routine for 0xef01,
    and fails with [ErrInvalidKeyType] for every other tag. *)
Theorem ParseKeyURI_dispatch
    (payload : string) (data : bytes) (keyType : N) (n : nat) :
  Multibase.Decode payload = Ok (Base58BTC, data) ->
  Varint.FromUvarint data = Ok (keyType, n) ->
  (keyType = 0xed%N ->
   ParseKeyURI ("did:key:" ++ payload) = UnmarshalEd25519PublicKey (drop n data)) /\
  (keyType = 0xe7%N ->
   ParseKeyURI ("did:key:" ++ payload) = UnmarshalSecp256k1PublicKey (drop n data)) /\
  (keyType = 0xef01%N ->
   ParseKeyURI ("did:key:" ++ payload) = UnmarshalEthPublicKey (drop n data)) /\
  (keyType <> 0xed%N -> keyType <> 0xe7%N -> keyType <> 0xef01%N ->
   ParseKeyURI ("did:key:" ++ payload) = Err ErrInvalidKeyType).
Proof.
  intros Hdec Hvar. unfold ParseKeyURI. strip_did_key.
  rewrite Hdec, Hvar. cbn [negb bool_decide decide_rel].
  rewrite bool_decide_eq_true_2 by reflexivity. cbn [negb].
  unfold multicodecKindEd25519PubKey, multicodecKindSecp256k1PubKey,
    multicodecKindEthPubKey.
  repeat split.
  - intros ->. reflexivity.
  - intros ->. reflexivity.
  - intros ->. reflexivity.
  - intros H1 H2 H3.
    rewrite (proj2 (N.eqb_neq _ _) H1), (proj2 (N.eqb_neq _ _) H2),
      (proj2 (N.eqb_neq _ _) H3). reflexivity.
Qed.

End KeyDecoder.

Lemma ParseKeyURI_unexpected_multibase_witness :
  Multibase.Decode (codecs := Reference.codecs) "uSGVsbG8"
  = Ok (Base64url, bytes_of_string "Hello") /\
  Reference.parse_ref "did:key:uSGVsbG8" = Err (ErrUnexpectedMultibase Base64url).
Proof.
  assert (Multibase.Decode (codecs := Reference.codecs) "uSGVsbG8"
          = Ok (Base64url, bytes_of_string "Hello")) as Hdec
    by (vm_compute; reflexivity).
  split; [exact Hdec|].
  refine (ParseKeyURI_unexpected_multibase (curve := Reference.curve)
            "uSGVsbG8" Base64url (bytes_of_string "Hello") Hdec _).
  discriminate.
Defined.

(** The URI of the test for an unsupported codec: tag 0x99 before 32 bytes
    of 0xff. *)
Lemma ParseKeyURI_dispatch_witness :
  Reference.parse_ref "did:key:z4TcvPWTPBxtjgTP5DcgzLeWrq67MF2KNpEM3taUzfcwHC8W"
  = Err ErrInvalidKeyType.
Proof.
  refine (proj2 (proj2 (proj2
            (ParseKeyURI_dispatch (curve := Reference.curve)
               (codecs := Reference.codecs)
               "z4TcvPWTPBxtjgTP5DcgzLeWrq67MF2KNpEM3taUzfcwHC8W"
               ([x99; x01] ++ replicate 32 xff)%list 0x99%N 2%nat _ _))) _ _ _).
  - vm_compute; reflexivity.
  - vm_compute; reflexivity.
  - discriminate.
  - discriminate.
  - discriminate.
Defined.

(** The three tags in scope do reach their routines: the payload that holds
    only the Ed25519 tag is refused by the Ed25519 routine, for its size. *)
Example ParseKeyURI_truncated_payload :
  Multibase.Encode (codecs := Reference.codecs) Base58BTC [xed; x01] = Ok "zK36" /\
  Reference.parse_ref "did:key:zK36" = Err ErrEd25519Size.
Proof. split; vm_compute; reflexivity. Qed.

(** ** [context.go] *)

Section TrustContextProperties.
Context {curve : Curve} {codecs : BaseCodecs} {PrivKey : Type}.

Abbreviation world := (World (PrivKey := PrivKey)).

(** The loop of the sweep, entry by entry: an entry of the map is gone
    exactly when it is among the enumerated pairs and has expired. *)
Lemma sweep_lookup (now : Time) (todo : list (DID * anchorEntry))
    (m : gmap DID anchorEntry) (k : DID) :
  NoDup todo.*1 ->
  (forall k' e', (k', e') ∈ todo -> m !! k' = Some e') ->
  sweep now todo m !! k
  = match m !! k with
    | Some e =>
        if bool_decide (k ∈ todo.*1) && Before (expire e) now then None
        else Some e
    | None => None
    end.
Proof.
  revert m. induction todo as [|[k0 e0] rest IH]; intros m Hnd Hin.
  - simpl. destruct (m !! k); reflexivity.
  - rewrite fmap_cons in Hnd |- *. cbn [fst] in Hnd |- *.
    apply NoDup_cons in Hnd as [Hk0 Hnd].
    assert (m !! k0 = Some e0) as Hm0 by (apply Hin; left).
    assert (forall k' e', (k', e') ∈ rest -> k' <> k0) as Hne.
    { intros k' e' H' ->. apply Hk0. apply list_elem_of_fmap.
      exists (k0, e'). split; [reflexivity | exact H']. }
    assert (forall k' e', (k', e') ∈ rest -> m !! k' = Some e') as Hin'
      by (intros k' e' H'; apply Hin; right; exact H').
    cbn [sweep]. destruct (decide (k = k0)) as [->|Hk].
    + rewrite Hm0, (bool_decide_eq_true_2 (k0 ∈ k0 :: rest.*1)) by left.
      destruct (Before (expire e0) now) eqn:Hexp; cbn [andb].
      * rewrite IH; [rewrite lookup_delete_eq; reflexivity | exact Hnd |].
        intros k' e' H'. rewrite lookup_delete_ne; [eauto|].
        intros ->. eapply Hne; eauto.
      * rewrite IH, Hm0 by assumption.
        rewrite (bool_decide_eq_false_2 (k0 ∈ rest.*1)) by exact Hk0.
        reflexivity.
    + rewrite (bool_decide_ext (k ∈ k0 :: rest.*1) (k ∈ rest.*1))
        by (rewrite elem_of_cons; tauto).
      destruct (Before (expire e0) now) eqn:Hexp.
      * rewrite IH; [rewrite lookup_delete_ne by congruence; reflexivity
                    | exact Hnd |].
        intros k' e' H'. rewrite lookup_delete_ne; [eauto|].
        intros ->. eapply Hne; eauto.
      * rewrite IH by assumption. reflexivity.
Qed.

Lemma sweep_map_to_list (now : Time) (m : gmap DID anchorEntry) (k : DID) :
  sweep now (map_to_list m) m !! k
  = match m !! k with
    | Some e => if Before (expire e) now then None else Some e
    | None => None
    end.
Proof.
  rewrite sweep_lookup.
  - destruct (m !! k) as [e|] eqn:Hk; [|reflexivity].
    rewrite bool_decide_eq_true_2; [reflexivity|].
    apply list_elem_of_fmap. exists (k, e). split; [reflexivity|].
    apply elem_of_map_to_list. exact Hk.
  - apply NoDup_fst_map_to_list.
  - intros k' e' H'. apply elem_of_map_to_list. exact H'.
Qed.

(** C8.  After the sweep, an anchor entry is in the map exactly when it was
    there before and its expiry is not strictly before the time the sweep
    read; the entries that stay are unchanged, and so is the whole providers
    map. *)
Theorem gcAnchorEntries_removes_exactly_expired (w : world) :
  let now := clock w (reads w) in
  let w' := snd (gcAnchorEntries w) in
  (forall k : DID,
     anchors (ctx w') !! k
     = match anchors (ctx w) !! k with
       | Some e => if (expire e <? now)%Z then None else Some e
       | None => None
       end) /\
  providers (ctx w') = providers (ctx w).
Proof.
  split; [|reflexivity].
  intros k. apply sweep_map_to_list.
Qed.

(** The result of the sweep does not depend on the order in which the map
    is enumerated. *)
Lemma sweep_any_order (now : Time) (m : gmap DID anchorEntry)
    (order : list (DID * anchorEntry)) :
  order ≡ₚ map_to_list m -> sweep now order m = sweep now (map_to_list m) m.
Proof.
  intros Hperm. apply map_eq. intros k.
  rewrite sweep_map_to_list, sweep_lookup.
  - destruct (m !! k) as [e|] eqn:Hk; [|reflexivity].
    rewrite bool_decide_eq_true_2; [reflexivity|].
    apply list_elem_of_fmap. exists (k, e). split; [reflexivity|].
    rewrite Hperm. apply elem_of_map_to_list. exact Hk.
  - rewrite Hperm. apply NoDup_fst_map_to_list.
  - intros k' e' H'. rewrite Hperm in H'. apply elem_of_map_to_list. exact H'.
Qed.

(** C2.  With [now] the reading of the clock during the call:
    - if the map has an entry for [did], expired or not, [GetAnchor] returns
      its anchor, sets the entry's expiry to [now + anchorEntryTTL] and does
      not call the resolver;
    - if it has none and the resolver returns an anchor, [GetAnchor] returns
      that anchor and stores it, under the anchor's own DID, with expiry
      [now + anchorEntryTTL];
    - if it has none and the resolver fails, [GetAnchor] returns the
      resolver's error wrapped, and the map is as it was. *)
Theorem GetAnchor_cache_or_resolve (did : DID) (w : world) :
  let now := clock w (reads w) in
  let out := GetAnchor did w in
  let fresh a := {| anchor := a; expire := (now + anchorEntryTTL)%Z |} in
  (forall entry, anchors (ctx w) !! did = Some entry ->
     fst out = Ok (anchor entry) /\
     anchors (ctx (snd out)) = <[did := fresh (anchor entry)]> (anchors (ctx w)) /\
     resolved (snd out) = resolved w) /\
  (forall a, anchors (ctx w) !! did = None ->
     GetAnchorForDID (anchorMethods w) did = Ok a ->
     fst out = Ok a /\
     anchors (ctx (snd out)) = <[anchor_did a := fresh a]> (anchors (ctx w)) /\
     resolved (snd out) = (resolved w ++ [did])%list) /\
  (forall err, anchors (ctx w) !! did = None ->
     GetAnchorForDID (anchorMethods w) did = Err err ->
     fst out = Err (Wrap "get anchor for did" err) /\
     anchors (ctx (snd out)) = anchors (ctx w) /\
     resolved (snd out) = (resolved w ++ [did])%list).
Proof.
  cbv zeta. repeat split;
    unfold GetAnchor, getAnchor, AddAnchor, call_GetAnchorForDID, bind,
      get_ctx, time_Now, set_anchors, ret; simpl;
    rewrite H; simpl; try rewrite H0; reflexivity.
Qed.

(** One hour, in nanoseconds. *)
Lemma anchorEntryTTL_one_hour : anchorEntryTTL = (60 * 60 * 1000 * 1000 * 1000)%Z.
Proof. reflexivity. Qed.

(** [GetAnchor] leaves the providers alone, and reads the clock at most
    once. *)
Lemma GetAnchor_frame (did : DID) (w : world) :
  providers (ctx (snd (GetAnchor did w))) = providers (ctx w) /\
  anchorMethods (snd (GetAnchor did w)) = anchorMethods w /\
  (reads (snd (GetAnchor did w)) <= S (reads w))%nat.
Proof.
  unfold GetAnchor, getAnchor, AddAnchor, call_GetAnchorForDID, bind,
    get_ctx, time_Now, set_anchors, ret; simpl.
  destruct (anchors (ctx w) !! did); simpl.
  - repeat split. lia.
  - destruct (GetAnchorForDID (anchorMethods w) did); simpl; repeat split; lia.
Qed.

(** An anchor the key method resolves carries the DID it was asked for, so
    a second [GetAnchor] for the same DID finds the entry and does not call
    the resolver again. *)
Lemma makeKeyAnchor_did (did : DID) (a : Anchor) :
  makeKeyAnchor did = Ok a -> anchor_did a = did.
Proof.
  unfold makeKeyAnchor. destruct (PublicKeyFromDID did); [|discriminate].
  intros [= <-]. reflexivity.
Qed.

Lemma GetAnchor_twice (did : DID) (w : world) (a : Anchor) :
  fst (GetAnchor did w) = Ok a ->
  anchor_did a = did ->
  let w1 := snd (GetAnchor did w) in
  fst (GetAnchor did w1) = Ok a /\
  resolved (snd (GetAnchor did w1)) = resolved w1.
Proof.
  intros Hfst Hdid w1.
  assert (exists e1, anchors (ctx w1) !! did = Some e1 /\ anchor e1 = a)
    as (e1 & He1 & Ha1).
  { subst w1. revert Hfst.
    unfold GetAnchor, getAnchor, AddAnchor, call_GetAnchorForDID, bind,
      get_ctx, time_Now, set_anchors, ret; simpl.
    destruct (anchors (ctx w) !! did) as [entry|] eqn:Hlook; simpl.
    - intros [= <-]. eexists. split; [apply lookup_insert_eq | reflexivity].
    - destruct (GetAnchorForDID (anchorMethods w) did) as [a'|err]; simpl;
        [|discriminate].
      intros [= ->]. rewrite Hdid. eexists.
      split; [apply lookup_insert_eq | reflexivity]. }
  unfold GetAnchor, getAnchor, bind, get_ctx, time_Now, set_anchors, ret; simpl.
  rewrite He1. simpl. split; congruence.
Qed.

End TrustContextProperties.

Lemma GetAnchor_cache_or_resolve_witness :
  (* a miss that the resolver cannot serve *)
  (fst (GetAnchor Reference.did_web Reference.world0)
   = Err (Wrap "get anchor for did" ErrNoAnchorMethod) /\
   anchors (ctx (snd (GetAnchor Reference.did_web Reference.world0)))
   = anchors (ctx Reference.world0)) /\
  (* a miss that the key method serves, at clock reading 1000 *)
  (fst (GetAnchor Reference.did_key7 Reference.world0)
   = Ok (NewAnchor Reference.did_key7 Reference.key7) /\
   anchors (ctx Reference.world1)
   = <[Reference.did_key7 :=
         {| anchor := NewAnchor Reference.did_key7 Reference.key7;
            expire := (1000 + anchorEntryTTL)%Z |}]> ∅) /\
  (* a hit, at clock reading 2000 *)
  (fst (GetAnchor Reference.did_key7 Reference.world1)
   = Ok (NewAnchor Reference.did_key7 Reference.key7) /\
   resolved (snd (GetAnchor Reference.did_key7 Reference.world1))
   = resolved Reference.world1).
Proof.
  assert (GetAnchorForDID (anchorMethods Reference.world0) Reference.did_key7
          = Ok (NewAnchor Reference.did_key7 Reference.key7)) as Hres
    by (vm_compute; reflexivity).
  assert (anchors (ctx Reference.world1) !! Reference.did_key7
          = Some {| anchor := NewAnchor Reference.did_key7 Reference.key7;
                    expire := (1000 + anchorEntryTTL)%Z |}) as Hhit
    by (vm_compute; reflexivity).
  destruct (GetAnchor_cache_or_resolve Reference.did_web Reference.world0)
    as (_ & _ & Herr).
  destruct (GetAnchor_cache_or_resolve Reference.did_key7 Reference.world0)
    as (_ & Hmiss & _).
  destruct (GetAnchor_cache_or_resolve Reference.did_key7 Reference.world1)
    as (Hcached & _ & _).
  split; [|split].
  - destruct (Herr ErrNoAnchorMethod) as (H1 & H2 & _);
      [reflexivity | vm_compute; reflexivity |].
    split; assumption.
  - destruct (Hmiss _ eq_refl Hres) as (H1 & H2 & _).
    split; [exact H1 | exact H2].
  - destruct (Hcached _ Hhit) as (H1 & _ & H3).
    split; [exact H1 | exact H3].
Defined.

(** ** Positional numerals: [Base58.value] and [Base58.digits] *)

Section Numerals.
Variable base : N.
Hypothesis base_ge_2 : (2 <= base)%N.

Abbreviation step := (fun acc d : N => (acc * base + d)%N).

Lemma value_app (ds1 ds2 : list N) :
  Base58.value base (ds1 ++ ds2) = fold_left step ds2 (Base58.value base ds1).
Proof. unfold Base58.value. apply fold_left_app. Qed.

Lemma value_snoc (ds : list N) (d : N) :
  Base58.value base (ds ++ [d]) = (Base58.value base ds * base + d)%N.
Proof. rewrite value_app. reflexivity. Qed.

Lemma value_zeros (z : nat) (ds : list N) :
  Base58.value base (replicate z 0%N ++ ds) = Base58.value base ds.
Proof.
  induction z as [|z IH]; [reflexivity|].
  unfold Base58.value in *. simpl. exact IH.
Qed.

Lemma fold_step_ge (ds : list N) (a : N) :
  (1 <= a)%N -> (1 <= fold_left step ds a)%N.
Proof.
  revert a. induction ds as [|d ds IH]; intros a Ha; simpl; [exact Ha|].
  apply IH. nia.
Qed.

(** A normal numeral with a digit spells a positive number. *)
Lemma value_normal_pos (ds : list N) :
  Base58.normal ds -> ds <> [] -> (1 <= Base58.value base ds)%N.
Proof.
  destruct ds as [|d ds]; [congruence|]. intros Hd _.
  unfold Base58.value. simpl in *. apply fold_step_ge. lia.
Qed.

(** With enough fuel, the digits of [n] put before [acc] spell what [acc]
    spells after [n]. *)
Lemma digits_onto_spells (fuel : nat) (n : N) (acc : list N) :
  (n < 2 ^ N.of_nat fuel)%N ->
  fold_left step (Base58.digits_onto base fuel n acc) 0%N = fold_left step acc n.
Proof.
  revert n acc. induction fuel as [|fuel IH]; intros n acc Hn.
  - simpl in *. assert (n = 0%N) as -> by lia. reflexivity.
  - cbn [Base58.digits_onto]. destruct (N.eqb_spec n 0) as [->|Hn0]; [reflexivity|].
    rewrite IH.
    + cbn [fold_left]. f_equal.
      rewrite (N.div_mod n base) at 3 by lia. lia.
    + rewrite Nat2N.inj_succ, N.pow_succ_r' in Hn.
      apply N.Div0.div_lt_upper_bound. nia.
Qed.

Lemma value_digits (n : N) : Base58.value base (Base58.digits base n) = n.
Proof.
  unfold Base58.value, Base58.digits. rewrite digits_onto_spells; [reflexivity|].
  rewrite N2Nat.id. apply N.size_gt.
Qed.

(** Every digit is below the base. *)
Lemma digits_onto_below (fuel : nat) (n : N) (acc : list N) :
  Forall (fun d => d < base)%N acc ->
  Forall (fun d => d < base)%N (Base58.digits_onto base fuel n acc).
Proof.
  revert n acc. induction fuel as [|fuel IH]; intros n acc Hacc; simpl; [exact Hacc|].
  destruct (n =? 0)%N; [exact Hacc|].
  apply IH. constructor; [apply N.mod_lt; lia | exact Hacc].
Qed.

Lemma digits_below (n : N) : Forall (fun d => d < base)%N (Base58.digits base n).
Proof. apply digits_onto_below. constructor. Qed.

(** The digits of the number a normal numeral spells are that numeral. *)
Lemma digits_onto_value (ds : list N) :
  Base58.normal ds -> Forall (fun d => d < base)%N ds ->
  forall (fuel : nat) (acc : list N),
    (Base58.value base ds < 2 ^ N.of_nat fuel)%N ->
    Base58.digits_onto base fuel (Base58.value base ds) acc = (ds ++ acc)%list.
Proof.
  induction ds as [|d ds IH] using rev_ind; intros Hnorm Hlt fuel acc Hfuel.
  - destruct fuel; reflexivity.
  - apply Forall_app in Hlt as [Hlt Hd]. inversion Hd as [|? ? Hdb _]; subst.
    rewrite value_snoc in *.
    assert (Base58.normal ds) as Hnorm' by (destruct ds; [exact I | exact Hnorm]).
    assert (Base58.value base ds * base + d <> 0)%N as Hpos.
    { destruct ds as [|d0 ds].
      - simpl in Hnorm. unfold Base58.value. simpl. lia.
      - pose proof (value_normal_pos (d0 :: ds) Hnorm' ltac:(discriminate)). nia. }
    destruct fuel as [|fuel]; [simpl in Hfuel; lia|].
    cbn [Base58.digits_onto].
    destruct (N.eqb_spec (Base58.value base ds * base + d) 0) as [H0|_]; [contradiction|].
    assert ((Base58.value base ds * base + d) / base = Base58.value base ds)%N as ->.
    { symmetry. apply (N.div_unique _ _ _ d); [exact Hdb | lia]. }
    assert ((Base58.value base ds * base + d) mod base = d)%N as ->.
    { symmetry. apply (N.mod_unique _ _ (Base58.value base ds)); [exact Hdb | lia]. }
    rewrite IH; [rewrite <- app_assoc; reflexivity | exact Hnorm' | exact Hlt |].
    rewrite Nat2N.inj_succ, N.pow_succ_r' in Hfuel. nia.
Qed.

Lemma digits_value (ds : list N) :
  Base58.normal ds -> Forall (fun d => d < base)%N ds ->
  Base58.digits base (Base58.value base ds) = ds.
Proof.
  intros Hnorm Hlt. unfold Base58.digits.
  rewrite digits_onto_value; [apply app_nil_r | exact Hnorm | exact Hlt |].
  rewrite N2Nat.id. apply N.size_gt.
Qed.

(** The digits of a number are a normal numeral. *)
Lemma digits_onto_acc (fuel : nat) (n : N) (acc : list N) :
  Base58.digits_onto base fuel n acc
  = (Base58.digits_onto base fuel n [] ++ acc)%list.
Proof.
  revert n acc. induction fuel as [|fuel IH]; intros n acc; simpl; [reflexivity|].
  destruct (n =? 0)%N; [reflexivity|].
  rewrite IH, (IH _ [_]), <- app_assoc. reflexivity.
Qed.

Lemma digits_onto_normal (fuel : nat) (n : N) :
  (n < 2 ^ N.of_nat fuel)%N -> n <> 0%N ->
  exists d rest, Base58.digits_onto base fuel n [] = d :: rest /\ d <> 0%N.
Proof.
  revert n. induction fuel as [|fuel IH]; intros n Hn Hn0.
  - simpl in Hn. lia.
  - cbn [Base58.digits_onto]. destruct (N.eqb_spec n 0) as [|_]; [contradiction|].
    rewrite digits_onto_acc.
    destruct (N.eq_dec (n / base)%N 0%N) as [Hq|Hq].
    + rewrite Hq. exists (n mod base)%N, [].
      split; [destruct fuel; reflexivity|].
      pose proof (N.div_mod n base ltac:(lia)). nia.
    + destruct (IH (n / base)%N) as (d & rest & Heq & Hd); [|exact Hq|].
      * rewrite Nat2N.inj_succ, N.pow_succ_r' in Hn.
        apply N.Div0.div_lt_upper_bound. nia.
      * rewrite Heq. exists d, (rest ++ [(n mod base)%N])%list. split; [reflexivity | exact Hd].
Qed.

Lemma digits_normal (n : N) : Base58.normal (Base58.digits base n).
Proof.
  destruct (N.eq_dec n 0%N) as [->|Hn]; [exact I|].
  destruct (digits_onto_normal (N.to_nat (N.size n)) n) as (d & rest & Heq & Hd).
  - rewrite N2Nat.id. apply N.size_gt.
  - exact Hn.
  - unfold Base58.digits. rewrite Heq. exact Hd.
Qed.

End Numerals.

(** ** base58: decoding inverts encoding *)

Lemma decode_encode_digit (d : N) :
  (d < 58)%N ->
  (127 <? N_of_ascii (Base58.encode_digit d))%N = false /\
  Base58.decode_digit (Base58.encode_digit d) = Some d.
Proof.
  intros Hd.
  assert (forallb
            (fun d => negb (127 <? N_of_ascii (Base58.encode_digit d))%N
                      && bool_decide
                           (Base58.decode_digit (Base58.encode_digit d) = Some d))
            (map N.of_nat (seq 0 58)) = true) as Hall
    by (vm_compute; reflexivity).
  rewrite forallb_forall in Hall.
  assert (In d (map N.of_nat (seq 0 58))) as Hin.
  { apply in_map_iff. exists (N.to_nat d). split; [apply N2Nat.id|].
    apply in_seq. lia. }
  apply Hall, andb_true_iff in Hin as [H1 H2].
  split; [apply negb_true_iff, H1 | exact (bool_decide_eq_true_1 _ H2)].
Qed.

Lemma decode_digits_encode (ds : list N) :
  Forall (fun d => d < 58)%N ds ->
  Base58.decode_digits (map Base58.encode_digit ds) = Ok ds.
Proof.
  induction 1 as [|d ds Hd _ IH]; [reflexivity|].
  destruct (decode_encode_digit d Hd) as [Hhigh Hdec].
  cbn [map Base58.decode_digits]. rewrite Hhigh, Hdec, IH. reflexivity.
Qed.

Lemma zero_digits_zeros (z : nat) (ds : list N) :
  Base58.normal ds -> Base58.zero_digits (replicate z 0%N ++ ds) = z.
Proof.
  intros Hnorm. induction z as [|z IH]; simpl.
  - destruct ds as [|d ds]; [reflexivity|]. simpl in *.
    destruct (N.eqb_spec d 0); [contradiction | reflexivity].
  - rewrite IH. reflexivity.
Qed.

Lemma to_N_zero (b : byte) : Byte.to_N b = 0%N -> b = x00.
Proof.
  intros H. pose proof (Byte.of_to_N b) as Hb. rewrite H in Hb.
  simpl in Hb. congruence.
Qed.

Lemma byte_of_to_N (b : byte) : byte_of_N (Byte.to_N b) = b.
Proof.
  unfold byte_of_N. pose proof (Byte.to_N_bounded b).
  rewrite N.mod_small by lia. rewrite Byte.of_to_N. reflexivity.
Qed.

(** A byte string is its leading zero bytes followed by a string that does
    not start with zero. *)
Lemma zero_bytes_split (bin : bytes) :
  bin = (replicate (Base58.zero_bytes bin) x00
           ++ drop (Base58.zero_bytes bin) bin)%list /\
  Base58.normal (map Byte.to_N (drop (Base58.zero_bytes bin) bin)).
Proof.
  induction bin as [|b bin [IH1 IH2]]; [split; [reflexivity | exact I]|].
  cbn [Base58.zero_bytes]. destruct (N.eqb_spec (Byte.to_N b) 0) as [Hb|Hb].
  - apply to_N_zero in Hb as ->. cbn [replicate drop app].
    split; [f_equal; exact IH1 | exact IH2].
  - split; [reflexivity | exact Hb].
Qed.

Lemma bytes_below_256 (bin : bytes) :
  Forall (fun d => d < 256)%N (map Byte.to_N bin).
Proof.
  apply Forall_map, Forall_forall. intros b _.
  pose proof (Byte.to_N_bounded b). lia.
Qed.

Lemma map_byte_of_to_N (bin : bytes) : map byte_of_N (map Byte.to_N bin) = bin.
Proof.
  induction bin as [|b bin IH]; [reflexivity|].
  simpl. rewrite byte_of_to_N, IH. reflexivity.
Qed.

Lemma Encode_not_empty (bin : bytes) :
  bin <> [] -> String.eqb (Base58.Encode bin) "" = false.
Proof.
  intros Hbin. unfold Base58.Encode.
  destruct (replicate (Base58.zero_bytes bin) 0%N
              ++ Base58.digits 58 (Base58.value 256 (map Byte.to_N bin)))%list
    as [|d ds] eqn:Hds; [|reflexivity].
  exfalso. apply app_eq_nil in Hds as [Hz Hdig].
  destruct bin as [|b bin]; [congruence|].
  cbn [Base58.zero_bytes] in Hz.
  destruct (N.eqb_spec (Byte.to_N b) 0) as [Hb|Hb]; [discriminate|].
  pose proof (value_digits 58 ltac:(lia) (Base58.value 256 (map Byte.to_N (b :: bin))))
    as Hval.
  rewrite Hdig in Hval.
  pose proof (value_normal_pos 256 ltac:(lia) (map Byte.to_N (b :: bin)) Hb
                ltac:(discriminate)).
  change (Base58.value 58 []) with 0%N in Hval. lia.
Qed.

(** [Decode(Encode(bin)) = bin] for every byte string but the empty one, whose
    encoding is the empty text, which the decoder refuses. *)
Lemma Base58_Decode_Encode (bin : bytes) :
  bin <> [] -> Base58.Decode (Base58.Encode bin) = Ok bin.
Proof.
  intros Hbin. unfold Base58.Decode. rewrite (Encode_not_empty bin Hbin).
  unfold Base58.Encode. rewrite list_ascii_of_string_of_list_ascii.
  destruct (zero_bytes_split bin) as [Hsplit Hnorm].
  set (z := Base58.zero_bytes bin) in *. set (tail := drop z bin) in *.
  set (n := Base58.value 256 (map Byte.to_N bin)).
  rewrite decode_digits_encode.
  - rewrite zero_digits_zeros by (apply digits_normal; lia).
    rewrite value_zeros, value_digits by lia.
    assert (n = Base58.value 256 (map Byte.to_N tail)) as ->.
    { subst n. rewrite Hsplit at 1. rewrite map_app.
      replace (map Byte.to_N (replicate z x00)) with (replicate z 0%N)
        by (clear; induction z; simpl; congruence).
      apply value_zeros. }
    rewrite digits_value; [|lia|exact Hnorm|apply bytes_below_256].
    rewrite map_byte_of_to_N. f_equal. symmetry. exact Hsplit.
  - apply Forall_app. split.
    + apply Forall_forall. intros d Hd%elem_of_replicate. lia.
    + apply digits_below. lia.
Qed.

Example Base58_empty : Base58.Encode [] = "" /\ Base58.Decode "" = Err ErrBase58Empty.
Proof. split; reflexivity. Qed.

(** ** [key.go]: parsing inverts formatting *)

Section KeyRoundTrip.
Context {curve : Curve} {codecs : BaseCodecs}.

Lemma Multibase_Decode_Encode (data : bytes) :
  data <> [] ->
  exists text, Multibase.Encode Base58BTC data = Ok text /\
               Multibase.Decode text = Ok (Base58BTC, data).
Proof.
  intros Hdata. eexists. split; [reflexivity|].
  cbn [Multibase.Decode Multibase.encoding_of_marker].
  rewrite Base58_Decode_Encode by exact Hdata. reflexivity.
Qed.

(** [FromUvarint] reads back each of the three tags and stops after it. *)
Lemma FromUvarint_tags (raw : bytes) :
  Varint.FromUvarint ([xed; x01] ++ raw) = Ok (multicodecKindEd25519PubKey, 2%nat) /\
  Varint.FromUvarint ([xe7; x01] ++ raw) = Ok (multicodecKindSecp256k1PubKey, 2%nat) /\
  Varint.FromUvarint ([x81; xde; x03] ++ raw) = Ok (multicodecKindEthPubKey, 3%nat).
Proof. repeat split. Qed.

(** The number of bytes [FromUvarint] reports is within the buffer, so the
    slice [data[n:]] of [ParseKeyURI] cannot panic. *)
Lemma FromUvarint_from_in_range (buf : bytes) (i : nat) (x s v : N) (n : nat) :
  Varint.FromUvarint_from buf i x s = Ok (v, n) -> (n <= i + length buf)%nat.
Proof.
  revert i x s. induction buf as [|b buf IH]; intros i x s; simpl; [discriminate|].
  destruct (_ || _); [discriminate|].
  destruct (_ <? _)%N.
  - destruct (_ && _); [discriminate|]. intros [= _ <-]. lia.
  - intros H%IH. lia.
Qed.

Lemma FromUvarint_in_range (buf : bytes) (v : N) (n : nat) :
  Varint.FromUvarint buf = Ok (v, n) -> (n <= length buf)%nat.
Proof. intros H%FromUvarint_from_in_range. lia. Qed.

Lemma ParseKeyURI_FormatKeyURI (pubk : PubKey) (raw tag : bytes) :
  Raw pubk = Ok raw ->
  tag_bytes (Type_ pubk) = Some tag ->
  ParseKeyURI ("did:key:z" ++ Base58.Encode (tag ++ raw)%list)
  = match Type_ pubk with
    | Ed25519 => UnmarshalEd25519PublicKey raw
    | Secp256k1 => UnmarshalSecp256k1PublicKey raw
    | _ => UnmarshalEthPublicKey raw
    end.
Proof.
  intros Hraw Htag. unfold ParseKeyURI.
  change ("did:key:z" ++ Base58.Encode (tag ++ raw)%list)
    with ("did:key:" ++ String "z" (Base58.Encode (tag ++ raw)%list)).
  strip_did_key.
  cbn [Multibase.Decode Multibase.encoding_of_marker].
  destruct (FromUvarint_tags raw) as (Hed & Hsecp & Heth).
  destruct (Type_ pubk); simpl in Htag; try discriminate; injection Htag as <-;
    rewrite Base58_Decode_Encode by discriminate;
    rewrite bool_decide_eq_true_2 by reflexivity; cbn [negb];
    [rewrite Hed | rewrite Hsecp | rewrite Heth]; reflexivity.
Qed.

(** C1.  For a public key of one of the three supported types whose raw
    bytes are what the libraries produce for that type, [FormatKeyURI]
    returns a non-empty URI, and [ParseKeyURI] of that URI succeeds with a key
    of the same type and the same raw bytes. *)
Theorem key_codec_round_trip (pubk : PubKey) (raw : bytes) :
  Raw pubk = Ok raw ->
  canonical_raw (Type_ pubk) raw ->
  exists (uri : string) (pubk' : PubKey),
    value (FormatKeyURI pubk) = Some uri /\
    uri <> "" /\
    ParseKeyURI uri = Ok pubk' /\
    Raw pubk' = Ok raw /\
    Type_ pubk' = Type_ pubk.
Proof.
  intros Hraw Hcanon.
  destruct (tag_bytes (Type_ pubk)) as [tag|] eqn:Htag;
    [|destruct (Type_ pubk); simpl in *; try discriminate; contradiction].
  rewrite (FormatKeyURI_supported pubk raw tag Hraw Htag).
  pose proof (ParseKeyURI_FormatKeyURI pubk raw tag Hraw Htag) as Hparse.
  exists ("did:key:z" ++ Base58.Encode (tag ++ raw)%list).
  destruct (Type_ pubk); simpl in Hcanon, Htag; try contradiction.
  - exists (Ed25519PublicKey raw). repeat split; [discriminate|].
    rewrite Hparse. unfold UnmarshalEd25519PublicKey. rewrite Hcanon. reflexivity.
  - destruct Hcanon as (p & Hp & Hser).
    exists (Secp256k1PublicKey p). repeat split; [discriminate| |].
    + rewrite Hparse. unfold UnmarshalSecp256k1PublicKey. rewrite Hp. reflexivity.
    + simpl. congruence.
  - destruct Hcanon as (p & Hp & Hser).
    exists (EthPublicKey p). repeat split; [discriminate| |].
    + rewrite Hparse. unfold UnmarshalEthPublicKey. rewrite Hp. reflexivity.
    + simpl. congruence.
Qed.

(** For the keys of the libraries themselves the parsed key is the key that
    was formatted, as the tests compare them. *)
Lemma key_codec_round_trip_Ed25519 (k : bytes) :
  length k = 32%nat ->
  exists uri, value (FormatKeyURI (Ed25519PublicKey k)) = Some uri /\
              ParseKeyURI uri = Ok (Ed25519PublicKey k).
Proof.
  intros Hk. eexists. split.
  - rewrite (FormatKeyURI_supported (Ed25519PublicKey k) k [xed; x01]);
      reflexivity.
  - rewrite (ParseKeyURI_FormatKeyURI (Ed25519PublicKey k) k [xed; x01]);
      try reflexivity.
    simpl. unfold UnmarshalEd25519PublicKey. rewrite Hk. reflexivity.
Qed.

Lemma key_codec_round_trip_curve (p : Point) :
  ParsePubKey (SerializeCompressed p) = Some p ->
  (exists uri, value (FormatKeyURI (Secp256k1PublicKey p)) = Some uri /\
               ParseKeyURI uri = Ok (Secp256k1PublicKey p)) /\
  (exists uri, value (FormatKeyURI (EthPublicKey p)) = Some uri /\
               ParseKeyURI uri = Ok (EthPublicKey p)).
Proof.
  intros Hp. split; eexists; split.
  - rewrite (FormatKeyURI_supported (Secp256k1PublicKey p) (SerializeCompressed p) [xe7; x01]);
      reflexivity.
  - rewrite (ParseKeyURI_FormatKeyURI (Secp256k1PublicKey p) (SerializeCompressed p) [xe7; x01]);
      try reflexivity.
    simpl. unfold UnmarshalSecp256k1PublicKey. rewrite Hp. reflexivity.
  - rewrite (FormatKeyURI_supported (EthPublicKey p) (SerializeCompressed p) [x81; xde; x03]);
      reflexivity.
  - rewrite (ParseKeyURI_FormatKeyURI (EthPublicKey p) (SerializeCompressed p) [x81; xde; x03]);
      try reflexivity.
    simpl. unfold UnmarshalEthPublicKey. rewrite Hp. reflexivity.
Qed.

(** A stub with a supported type and raw bytes no library would produce is
    formatted but not parsed back: the hypothesis on the raw bytes is
    needed. *)
Lemma short_Ed25519_stub_is_not_parsed_back :
  let stub := ForeignPubKey Ed25519 (Ok [x01; x02; x03]) in
  exists uri, value (FormatKeyURI stub) = Some uri /\
              uri <> "" /\ ParseKeyURI uri = Err ErrEd25519Size.
Proof.
  intros stub. eexists. split; [|split].
  - rewrite (FormatKeyURI_supported stub [x01; x02; x03] [xed; x01]);
      reflexivity.
  - discriminate.
  - rewrite (ParseKeyURI_FormatKeyURI stub [x01; x02; x03] [xed; x01]);
      reflexivity.
Qed.

End KeyRoundTrip.

Lemma key_codec_round_trip_witness :
  (exists (uri : string) (pubk' : PubKey),
     value (Reference.format_ref Reference.key7) = Some uri /\
     uri <> "" /\
     Reference.parse_ref uri = Ok pubk' /\
     Raw pubk' = Ok (replicate 32 x07) /\
     Type_ pubk' = Ed25519) /\
  (exists (uri : string) (pubk' : PubKey),
     value (Reference.format_ref Reference.secp_generator) = Some uri /\
     uri <> "" /\
     Reference.parse_ref uri = Ok pubk' /\
     Raw pubk' = Ok Reference.generator /\
     Type_ pubk' = Secp256k1).
Proof.
  split.
  - apply (key_codec_round_trip (codecs := Reference.codecs) Reference.key7
             (replicate 32 x07)); reflexivity.
  - apply (key_codec_round_trip (codecs := Reference.codecs)
             Reference.secp_generator Reference.generator).
    + reflexivity.
    + exists Reference.generator. split; reflexivity.
Defined.

(** The sweep at time 1000 over entries that expire at 500, 1000 and 5000:
    only the first is strictly before the time of the sweep. *)
Example gcAnchorEntries_at_1000 :
  let w' := snd (gcAnchorEntries Reference.world3) in
  anchors (ctx w') !! Reference.did_a = None /\
  anchors (ctx w') !! Reference.did_b
  = Some (Reference.entry_at Reference.did_b 1000%Z) /\
  anchors (ctx w') !! Reference.did_c
  = Some (Reference.entry_at Reference.did_c 5000%Z) /\
  providers (ctx w') = providers (ctx Reference.world3).
Proof. vm_compute. repeat split. Qed.

(** * Further properties *)

(** ** [did.go]: segments *)

Lemma String_app_cons (c : ascii) (s t : string) :
  String c s ++ t = String c (s ++ t).
Proof. reflexivity. Qed.

Lemma colon_free_cons (c : ascii) (s : string) :
  colon_free (String c s) <-> c <> ":"%char /\ colon_free s.
Proof.
  unfold colon_free. simpl. split.
  - intros H. inversion H; subst. split; assumption.
  - intros [Hc Hs]. constructor; assumption.
Qed.

Lemma Split_colon_free (s : string) :
  colon_free s -> Strings.Split s ":" = [s].
Proof.
  induction s as [|c s IH]; [reflexivity|].
  intros [Hc Hs]%colon_free_cons. simpl.
  rewrite (proj2 (Ascii.eqb_neq c ":") Hc), (IH Hs). reflexivity.
Qed.

Lemma Split_app_colon (s rest : string) :
  colon_free s ->
  Strings.Split (s ++ String ":" rest) ":" = s :: Strings.Split rest ":".
Proof.
  induction s as [|c s IH]; [reflexivity|].
  intros [Hc Hs]%colon_free_cons. rewrite String_app_cons. simpl.
  rewrite (proj2 (Ascii.eqb_neq c ":") Hc), (IH Hs). reflexivity.
Qed.

(** [Split] can be undone: the first segment has no colon, and what follows
    it is a colon and a string that splits into the other segments. *)
Lemma Split_inv (s p : string) (ps : list string) :
  Strings.Split s ":" = p :: ps ->
  colon_free p /\
  match ps with
  | [] => s = p
  | _ :: _ => exists rest, s = p ++ String ":" rest /\ Strings.Split rest ":" = ps
  end.
Proof.
  revert p ps. induction s as [|c s IH]; intros p ps; simpl.
  - intros [= <- <-]. split; [constructor | reflexivity].
  - destruct (Ascii.eqb_spec c ":") as [->|Hc].
    + intros [= <- <-]. split; [constructor|].
      pose proof (Split_nonempty s ":") as Hne.
      destruct (Strings.Split s ":") as [|q qs] eqn:Hs; [congruence|].
      exists s. split; [reflexivity | exact Hs].
    + destruct (Strings.Split s ":") as [|q qs] eqn:Hs.
      * exfalso. exact (Split_nonempty s ":" Hs).
      * intros [= <- <-]. destruct (IH q qs eq_refl) as [Hq Hrest].
        split; [apply colon_free_cons; split; assumption|].
        destruct qs as [|r rs].
        -- congruence.
        -- destruct Hrest as (rest & -> & Hsplit).
           exists rest. split; [reflexivity | exact Hsplit].
Qed.

(** X1.  A DID has exactly three segments, with [Method() = m] and
    [Identifier() = i], exactly when its URI is a colon-free scheme, a colon,
    the colon-free [m], a colon and the colon-free [i]. *)
Theorem Method_Identifier_iff (d : DID) (m i : string) :
  length (Strings.Split (URI d) ":") = 3%nat /\
  Method d = Some m /\ Identifier d = Some i
  <->
  exists scheme, colon_free scheme /\ colon_free m /\ colon_free i /\
                 URI d = scheme ++ ":" ++ m ++ ":" ++ i.
Proof.
  unfold Method, Identifier. split.
  - intros (Hlen & Hm & Hi). rewrite Hlen in Hm, Hi. simpl in Hm, Hi.
    destruct (Strings.Split (URI d) ":") as [|a [|b [|c [|? ?]]]] eqn:Hs;
      try discriminate.
    injection Hm as ->. injection Hi as ->.
    apply Split_inv in Hs as (Ha & rest1 & Huri & Hs1).
    apply Split_inv in Hs1 as (Hb & rest2 & Hr1 & Hs2).
    apply Split_inv in Hs2 as (Hc & Hr2).
    exists a. subst. repeat split; assumption.
  - intros (scheme & Hs & Hm & Hi & Huri). rewrite Huri.
    change (scheme ++ ":" ++ m ++ ":" ++ i)
      with (scheme ++ String ":" (m ++ String ":" i)).
    rewrite (Split_app_colon _ _ Hs), (Split_app_colon _ _ Hm),
      (Split_colon_free _ Hi).
    repeat split.
Qed.

(** [Equal] decides equality of DIDs and [Empty] recognises the zero DID. *)
Lemma Equal_Empty_spec (d1 d2 : DID) :
  (Equal d1 d2 = true <-> d1 = d2) /\ (Empty d1 = true <-> d1 = Did.zero).
Proof.
  destruct d1 as [u1], d2 as [u2]. unfold Equal, Empty, Did.zero. simpl.
  rewrite !String.eqb_eq. split; split; congruence.
Qed.

(** X2.  A non-empty string that [FromString] of the second copy of did.go
    accepts has a method and an identifier that are not empty, and the DID
    returned holds the string unchanged. *)
Theorem FromString_rev_accepts_well_formed (s : string) (d : DID) :
  FromString_rev s = Ok d ->
  URI d = s /\
  (s <> "" ->
   exists m i, Method d = Some m /\ Identifier d = Some i /\ m <> "" /\ i <> "").
Proof.
  unfold FromString_rev.
  destruct (String.eqb_spec s "") as [->|Hs]; simpl.
  - intros [= <-]. split; [reflexivity | congruence].
  - destruct (Nat.eqb_spec (length (Strings.Split s ":")) 3) as [H3|H3];
      simpl; [|discriminate].
    destruct (has_empty_part (Strings.Split s ":")) eqn:He; [discriminate|].
    intros [= <-]. split; [reflexivity|]. intros _.
    unfold Method, Identifier. simpl. rewrite H3. simpl.
    destruct (Strings.Split s ":") as [|a [|b [|c [|? ?]]]]; try discriminate.
    simpl in He.
    destruct (String.eqb_spec a ""); [discriminate|].
    destruct (String.eqb_spec b ""); [discriminate|].
    destruct (String.eqb_spec c ""); [discriminate|].
    exists b, c. repeat split; assumption.
Qed.

Lemma FromString_rev_accepts_well_formed_witness :
  URI {| URI := "did:web:example.com" |} = "did:web:example.com" /\
  ("did:web:example.com" <> "" ->
   exists m i, Method {| URI := "did:web:example.com" |} = Some m /\
               Identifier {| URI := "did:web:example.com" |} = Some i /\
               m <> "" /\ i <> "").
Proof.
  exact (FromString_rev_accepts_well_formed "did:web:example.com"
           {| URI := "did:web:example.com" |} eq_refl).
Defined.

(** ** [key.go]: the shape of the URIs *)

Lemma encode_digit_not_colon (d : N) :
  (d < 58)%N -> Base58.encode_digit d <> ":"%char.
Proof.
  intros Hd Heq. destruct (decode_encode_digit d Hd) as [_ Hdec].
  rewrite Heq in Hdec. discriminate.
Qed.

Lemma Encode_colon_free (bin : bytes) : colon_free (Base58.Encode bin).
Proof.
  unfold colon_free, Base58.Encode. rewrite list_ascii_of_string_of_list_ascii.
  apply Forall_map, Forall_app. split.
  - apply Forall_forall. intros d Hd%elem_of_replicate.
    apply encode_digit_not_colon. lia.
  - eapply Forall_impl; [apply (digits_below 58); lia|].
    intros d Hd. apply encode_digit_not_colon. exact Hd.
Qed.

Lemma Split_key_URI (bin : bytes) :
  Strings.Split ("did:key:z" ++ Base58.Encode bin) ":"
  = ["did"; "key"; String "z" (Base58.Encode bin)].
Proof.
  change ("did:key:z" ++ Base58.Encode bin)
    with ("did" ++ String ":" ("key" ++ String ":" (String "z" (Base58.Encode bin)))).
  rewrite Split_app_colon by (repeat constructor; discriminate).
  rewrite Split_app_colon by (repeat constructor; discriminate).
  rewrite Split_colon_free; [reflexivity|].
  apply colon_free_cons. split; [discriminate | apply Encode_colon_free].
Qed.

Section KeyShape.
Context {curve : Curve} {codecs : BaseCodecs}.

(** A non-empty URI comes from a key with raw bytes and a codec tag. *)
Lemma FormatKeyURI_nonempty_inv (pubk : PubKey) (uri : string) :
  value (FormatKeyURI pubk) = Some uri -> uri <> "" ->
  exists raw tag,
    Raw pubk = Ok raw /\ tag_bytes (Type_ pubk) = Some tag /\
    uri = "did:key:z" ++ Base58.Encode (tag ++ raw)%list.
Proof.
  intros Hval Hne.
  destruct (Raw pubk) as [raw|e] eqn:Hraw.
  - destruct (tag_bytes (Type_ pubk)) as [tag|] eqn:Htag.
    + rewrite (FormatKeyURI_supported pubk raw tag Hraw Htag) in Hval.
      injection Hval as <-. exists raw, tag. repeat split.
    + rewrite FormatKeyURI_without_tag in Hval by (right; exact Htag). congruence.
  - rewrite FormatKeyURI_without_tag in Hval by (left; rewrite Hraw; reflexivity).
    congruence.
Qed.

(** X3.  Every DID [FromPublicKey] returns is accepted, unchanged, by both
    copies of [FromString]; for a key with raw bytes and one of the three
    supported types its method is [key] and its identifier starts with the
    base58btc marker [z]. *)
Theorem FromPublicKey_well_formed (pubk : PubKey) :
  exists d : DID,
    value (FromPublicKey pubk) = Some d /\
    FromString (URI d) = Ok d /\
    FromString_rev (URI d) = Ok d /\
    (is_ok (Raw pubk) = true ->
     Type_ pubk = Ed25519 \/ Type_ pubk = Secp256k1 \/ Type_ pubk = Eth ->
     Method d = Some "key" /\ exists id, Identifier d = Some (String "z" id)).
Proof.
  destruct (Raw pubk) as [raw|e] eqn:Hraw.
  - destruct (tag_bytes (Type_ pubk)) as [tag|] eqn:Htag.
    + exists {| URI := "did:key:z" ++ Base58.Encode (tag ++ raw)%list |}.
      unfold FromPublicKey.
      rewrite (FormatKeyURI_supported pubk raw tag Hraw Htag).
      unfold FromString, FromString_rev, Method, Identifier. cbn [URI].
      rewrite Split_key_URI. repeat split. eexists; reflexivity.
    + exists {| URI := "" |}. unfold FromPublicKey.
      rewrite FormatKeyURI_without_tag by (right; exact Htag).
      do 3 (split; [reflexivity|]).
      intros _ [H|[H|H]]; rewrite H in Htag; discriminate.
  - exists {| URI := "" |}. unfold FromPublicKey.
    rewrite FormatKeyURI_without_tag by (left; rewrite Hraw; reflexivity).
    do 3 (split; [reflexivity|]). discriminate.
Qed.

(** The unmarshal routine of a type accepts the canonical raw bytes of that
    type and returns a key with those bytes. *)
Lemma unmarshal_canonical (ty : KeyType) (raw : bytes) :
  canonical_raw ty raw ->
  exists pubk',
    match ty with
    | Ed25519 => UnmarshalEd25519PublicKey raw
    | Secp256k1 => UnmarshalSecp256k1PublicKey raw
    | _ => UnmarshalEthPublicKey raw
    end = Ok pubk'
    /\ Raw pubk' = Ok raw /\ Type_ pubk' = ty.
Proof.
  destruct ty; simpl; try contradiction.
  - intros Hlen. exists (Ed25519PublicKey raw).
    unfold UnmarshalEd25519PublicKey. rewrite Hlen. repeat split.
  - intros (p & Hp & Hser). exists (Secp256k1PublicKey p).
    unfold UnmarshalSecp256k1PublicKey. rewrite Hp. simpl.
    repeat split. congruence.
  - intros (p & Hp & Hser). exists (EthPublicKey p).
    unfold UnmarshalEthPublicKey. rewrite Hp. simpl.
    repeat split. congruence.
Qed.

(** X4.  [PublicKeyFromDID(FromPublicKey(k))] succeeds for a key of a
    supported type with canonical raw bytes, and returns a key of the same
    type and raw bytes: the DID passes the method test of
    [PublicKeyFromDID]. *)
Theorem PublicKeyFromDID_FromPublicKey (pubk : PubKey) (raw : bytes) :
  Raw pubk = Ok raw ->
  canonical_raw (Type_ pubk) raw ->
  exists (d : DID) (pubk' : PubKey),
    value (FromPublicKey pubk) = Some d /\
    PublicKeyFromDID d = Ok pubk' /\
    Raw pubk' = Ok raw /\ Type_ pubk' = Type_ pubk.
Proof.
  intros Hraw Hcanon.
  destruct (tag_bytes (Type_ pubk)) as [tag|] eqn:Htag;
    [|destruct (Type_ pubk); simpl in *; try discriminate; contradiction].
  destruct (unmarshal_canonical _ _ Hcanon) as (pubk' & Hun & Hraw' & Hty').
  exists {| URI := "did:key:z" ++ Base58.Encode (tag ++ raw)%list |}, pubk'.
  unfold FromPublicKey. rewrite (FormatKeyURI_supported pubk raw tag Hraw Htag).
  split; [reflexivity|]. split; [|split; assumption].
  unfold PublicKeyFromDID, Method. cbn [URI]. rewrite Split_key_URI.
  cbn [length Nat.eqb lookup list_lookup].
  rewrite bool_decide_eq_true_2 by reflexivity. cbn [negb].
  rewrite (ParseKeyURI_FormatKeyURI pubk raw tag Hraw Htag), Hun. reflexivity.
Qed.

Lemma tag_bytes_app_inj (ty1 ty2 : KeyType) (tag1 tag2 raw1 raw2 : bytes) :
  tag_bytes ty1 = Some tag1 -> tag_bytes ty2 = Some tag2 ->
  (tag1 ++ raw1 = tag2 ++ raw2)%list ->
  ty1 = ty2 /\ raw1 = raw2.
Proof.
  destruct ty1; simpl; try discriminate; intros [= <-];
    destruct ty2; simpl; try discriminate; intros [= <-];
    simpl; intros H; try discriminate; injection H as ->; split; reflexivity.
Qed.

(** X5.  [FormatKeyURI] gives different keys different URIs: two keys with
    the same non-empty URI have the same type and the same raw bytes. *)
Theorem FormatKeyURI_injective (pubk1 pubk2 : PubKey) (uri : string) :
  value (FormatKeyURI pubk1) = Some uri ->
  value (FormatKeyURI pubk2) = Some uri ->
  uri <> "" ->
  Type_ pubk1 = Type_ pubk2 /\ Raw pubk1 = Raw pubk2.
Proof.
  intros H1 H2 Hne.
  destruct (FormatKeyURI_nonempty_inv pubk1 uri H1 Hne)
    as (raw1 & tag1 & Hraw1 & Htag1 & Huri1).
  destruct (FormatKeyURI_nonempty_inv pubk2 uri H2 Hne)
    as (raw2 & tag2 & Hraw2 & Htag2 & Huri2).
  rewrite Huri1 in Huri2.
  assert (Base58.Encode (tag1 ++ raw1)%list = Base58.Encode (tag2 ++ raw2)%list)
    as Henc by (injection Huri2; auto).
  assert (Ok (tag1 ++ raw1)%list = Ok (E := error) (tag2 ++ raw2)%list) as Hdec.
  { rewrite <- (Base58_Decode_Encode (tag1 ++ raw1)%list),
      <- (Base58_Decode_Encode (tag2 ++ raw2)%list).
    - rewrite Henc. reflexivity.
    - destruct (Type_ pubk2); simpl in Htag2; try discriminate;
        injection Htag2 as <-; discriminate.
    - destruct (Type_ pubk1); simpl in Htag1; try discriminate;
        injection Htag1 as <-; discriminate. }
  injection Hdec as Happ.
  destruct (tag_bytes_app_inj _ _ _ _ _ _ Htag1 Htag2 Happ) as [Hty ->].
  split; [exact Hty | congruence].
Qed.

(** X6.  A key [ParseKeyURI] returns comes from a URI that starts with
    [did:key:], and is a key of one of the three libraries: an Ed25519 key of
    32 bytes or a curve point. *)
Theorem ParseKeyURI_sound (uri : string) (pubk : PubKey) :
  ParseKeyURI uri = Ok pubk ->
  Strings.HasPrefix uri "did:key:" = true /\
  match pubk with
  | Ed25519PublicKey k => length k = 32%nat
  | Secp256k1PublicKey _ | EthPublicKey _ => True
  | ForeignPubKey _ _ => False
  end.
Proof.
  intros Hparse.
  destruct (Strings.HasPrefix uri "did:key:") eqn:Hpre.
  - split; [reflexivity|].
    apply HasPrefix_app in Hpre as [payload ->].
    revert Hparse. unfold ParseKeyURI. strip_did_key.
    destruct (Multibase.Decode payload) as [[enc data]|e]; [|discriminate].
    destruct (negb (bool_decide (enc = Base58BTC))); [discriminate|].
    destruct (Varint.FromUvarint data) as [[keyType n]|e]; [|discriminate].
    destruct (_ =? _)%N.
    { unfold UnmarshalEd25519PublicKey.
      destruct (Nat.eqb_spec (length (drop n data)) 32); [|discriminate].
      intros [= <-]. assumption. }
    destruct (_ =? _)%N.
    { unfold UnmarshalSecp256k1PublicKey.
      destruct (ParsePubKey (drop n data)); [|discriminate].
      intros [= <-]. exact I. }
    destruct (_ =? _)%N; [|discriminate].
    unfold UnmarshalEthPublicKey.
    destruct (ParsePubKey (drop n data)); [|discriminate].
    intros [= <-]. exact I.
  - destruct (ParseKeyURI_needs_did_key_colon uri Hpre) as [H|H];
      rewrite H in Hparse; discriminate.
Qed.

(** X7.  A payload with the Ed25519 tag and a key that is not 32 bytes long
    is refused with the size error of the Ed25519 routine. *)
Theorem ParseKeyURI_Ed25519_wrong_size (raw : bytes) (text : string) :
  length raw <> 32%nat ->
  Multibase.Encode Base58BTC ([xed; x01] ++ raw)%list = Ok text ->
  ParseKeyURI ("did:key:" ++ text) = Err ErrEd25519Size.
Proof.
  intros Hlen [= <-].
  change ("did:key:" ++ String "z" (Base58.Encode ([xed; x01] ++ raw)%list))
    with ("did:key:z" ++ Base58.Encode ([xed; x01] ++ raw)%list).
  rewrite (ParseKeyURI_FormatKeyURI (ForeignPubKey Ed25519 (Ok raw)) raw
             [xed; x01] eq_refl eq_refl).
  simpl. unfold UnmarshalEd25519PublicKey.
  destruct (Nat.eqb_spec (length raw) 32); [contradiction | reflexivity].
Qed.

Lemma decode_digits_bad (cs : list ascii) (c : ascii) :
  In c cs -> Base58.decode_digit c = None ->
  exists e, Base58.decode_digits cs = Err e.
Proof.
  induction cs as [|c0 cs IH]; [contradiction|].
  intros [->|Hin] Hbad; simpl.
  - destruct (_ <? _)%N; [eexists; reflexivity|].
    rewrite Hbad. eexists; reflexivity.
  - destruct (_ <? _)%N; [eexists; reflexivity|].
    destruct (Base58.decode_digit c0); [|eexists; reflexivity].
    destruct (IH Hin Hbad) as [e ->]. eexists; reflexivity.
Qed.

(** X8.  A base58btc payload with a character outside the Bitcoin alphabet
    is refused while decoding the multibase text, before any key is looked
    at. *)
Theorem ParseKeyURI_bad_base58_digit (text : string) (c : ascii) :
  In c (list_ascii_of_string text) ->
  Base58.decode_digit c = None ->
  exists e, ParseKeyURI ("did:key:z" ++ text) = Err (Wrap "decoding multibase" e).
Proof.
  intros Hin Hbad.
  change ("did:key:z" ++ text) with ("did:key:" ++ String "z" text).
  unfold ParseKeyURI. strip_did_key.
  cbn [Multibase.Decode Multibase.encoding_of_marker]. unfold Base58.Decode.
  destruct (String.eqb_spec text "") as [->|_]; [contradiction|].
  destruct (decode_digits_bad _ _ Hin Hbad) as [e ->].
  eexists; reflexivity.
Qed.

End KeyShape.

(** ** The codec is canonical: encoding inverts decoding *)

Lemma lor_shiftl_add (x y s : N) :
  (x < 2 ^ s)%N -> N.lor x (N.shiftl y s) = (x + y * 2 ^ s)%N.
Proof.
  intros Hx.
  assert (N.land x (N.shiftl y s) = 0%N) as Hland.
  { apply N.bits_inj. intros n. rewrite N.land_spec, N.bits_0.
    destruct (N.lt_ge_cases n s) as [Hn|Hn].
    - rewrite N.shiftl_spec_low by exact Hn. apply andb_false_r.
    - destruct (N.eq_dec x 0%N) as [->|Hx0]; [rewrite N.bits_0; reflexivity|].
      rewrite N.bits_above_log2; [reflexivity|].
      apply N.lt_le_trans with s; [|exact Hn].
      apply N.log2_lt_pow2; [lia | exact Hx]. }
  rewrite <- N.lxor_lor, <- N.add_nocarry_lxor by exact Hland.
  rewrite N.shiftl_mul_pow2. reflexivity.
Qed.

(** What [FromUvarint] has read when it succeeds: either the byte at hand
    closes the number, or it has its high bit set, at least one more byte
    follows, and the number is at least [2 ^ (s + 7)] because the closing
    byte of a longer encoding is not zero. *)
Lemma FromUvarint_from_spec (buf : bytes) (i : nat) (x s v : N) (n : nat) :
  s = (7 * N.of_nat i)%N ->
  (x < 2 ^ s)%N ->
  Varint.FromUvarint_from buf i x s = Ok (v, n) ->
  exists b rest,
    buf = b :: rest /\
    ((Byte.to_N b < 128)%N /\ n = S i /\ v = (x + Byte.to_N b * 2 ^ s)%N /\
     (s = 0%N \/ Byte.to_N b <> 0%N)
     \/
     (128 <= Byte.to_N b)%N /\ (S i < n)%nat /\ (2 ^ (s + 7) <= v)%N /\
     Varint.FromUvarint_from rest (S i)
       (x + (Byte.to_N b - 128) * 2 ^ s)%N (s + 7)%N = Ok (v, n)).
Proof.
  revert i x s. induction buf as [|b buf IH]; intros i x s Hs Hx; [discriminate|].
  cbn [Varint.FromUvarint_from]. cbv zeta.
  pose proof (Byte.to_N_bounded b) as Hb.
  destruct (_ || _) eqn:Hover; [discriminate|].
  apply orb_false_iff in Hover as [Hover8 Hover9].
  apply Nat.leb_gt in Hover9.
  assert (s <= 56)%N as Hs56 by lia.
  assert (2 ^ s <= 2 ^ 56)%N as Hpow by (apply N.pow_le_mono_r; lia).
  destruct (N.ltb_spec (Byte.to_N b) 128) as [Hlow|Hhigh].
  - destruct ((Byte.to_N b =? 0)%N && (0 <? s)%N) eqn:Hmin; [discriminate|].
    intros Heq. injection Heq as <- <-.
    exists b, buf. split; [reflexivity|]. left.
    assert (Varint.u64 (N.shiftl (Byte.to_N b) s) = N.shiftl (Byte.to_N b) s) as ->.
    { unfold Varint.u64. apply N.mod_small. rewrite N.shiftl_mul_pow2.
      change (2 ^ 64)%N with (2 ^ 8 * 2 ^ 56)%N. nia. }
    rewrite lor_shiftl_add by exact Hx.
    repeat split; try assumption.
    apply andb_false_iff in Hmin as [Hz|Hz].
    + right. apply N.eqb_neq. exact Hz.
    + left. apply N.ltb_ge in Hz. lia.
  - assert (N.land (Byte.to_N b) 127 = Byte.to_N b - 128)%N as Hland.
    { change 127%N with (N.ones 7). rewrite N.land_ones.
      change (2 ^ 7)%N with 128%N.
      symmetry. apply (N.mod_unique _ _ 1); lia. }
    rewrite Hland.
    assert (Varint.u64 (N.shiftl (Byte.to_N b - 128) s)
            = N.shiftl (Byte.to_N b - 128) s) as ->.
    { unfold Varint.u64. apply N.mod_small. rewrite N.shiftl_mul_pow2.
      change (2 ^ 64)%N with (2 ^ 8 * 2 ^ 56)%N. nia. }
    rewrite lor_shiftl_add by exact Hx.
    intros Hrec. exists b, buf. split; [reflexivity|]. right.
    assert (x + (Byte.to_N b - 128) * 2 ^ s < 2 ^ (s + 7))%N as Hx'.
    { rewrite N.pow_add_r. change (2 ^ 7)%N with 128%N. nia. }
    destruct (IH (S i) _ (s + 7)%N ltac:(lia) Hx' Hrec)
      as (b' & rest' & -> & [(Hb' & -> & -> & Hnz)|(Hb' & Hn & Hv & _)]).
    + repeat split; try assumption; [lia|].
      destruct Hnz as [Hnz|Hnz]; [lia|]. nia.
    + repeat split; try assumption; [lia|].
      etransitivity; [|exact Hv]. apply N.pow_le_mono_r; lia.
Qed.

Lemma to_N_inj (b1 b2 : byte) : Byte.to_N b1 = Byte.to_N b2 -> b1 = b2.
Proof.
  intros H. pose proof (Byte.of_to_N b1) as H1. rewrite H, Byte.of_to_N in H1.
  congruence.
Qed.

(** A buffer that [FromUvarint] reads as one of the three codec tags starts
    with the bytes [FormatKeyURI] writes for that tag. *)
Lemma FromUvarint_tag_bytes (data : bytes) (n : nat) (ty : KeyType) (tag : bytes)
    (t : N) :
  tag_bytes ty = Some tag ->
  t = match ty with
      | Ed25519 => multicodecKindEd25519PubKey
      | Secp256k1 => multicodecKindSecp256k1PubKey
      | _ => multicodecKindEthPubKey
      end ->
  Varint.FromUvarint data = Ok (t, n) ->
  data = (tag ++ drop n data)%list.
Proof.
  intros Htag -> Hvar. unfold Varint.FromUvarint in Hvar.
  apply FromUvarint_from_spec in Hvar
    as (b0 & rest0 & -> & [(Hb0 & -> & Hv & _)|(Hb0 & Hn0 & Hv0 & Hrec0)]);
    [| |reflexivity|simpl; lia].
  { destruct ty; simpl in Htag; try discriminate;
      unfold multicodecKindEd25519PubKey, multicodecKindSecp256k1PubKey,
        multicodecKindEthPubKey in Hv; simpl in Hv; lia. }
  pose proof (Byte.to_N_bounded b0) as Hbound0.
  change (0 + 7)%N with 7%N in *. change (2 ^ 0)%N with 1%N in *.
  apply FromUvarint_from_spec in Hrec0
    as (b1 & rest1 & -> & [(Hb1 & -> & Hv & _)|(Hb1 & Hn1 & Hv1 & Hrec1)]);
    [| |reflexivity|change (2 ^ 7)%N with 128%N; lia].
  { change (2 ^ 7)%N with 128%N in Hv.
    destruct ty; simpl in Htag; try discriminate; injection Htag as <-;
      unfold multicodecKindEd25519PubKey, multicodecKindSecp256k1PubKey,
        multicodecKindEthPubKey in Hv; simpl.
    - assert (Byte.to_N b0 = Byte.to_N xed /\ Byte.to_N b1 = Byte.to_N x01)
        as [->%to_N_inj ->%to_N_inj] by (simpl; lia). reflexivity.
    - assert (Byte.to_N b0 = Byte.to_N xe7 /\ Byte.to_N b1 = Byte.to_N x01)
        as [->%to_N_inj ->%to_N_inj] by (simpl; lia). reflexivity.
    - exfalso. lia. }
  pose proof (Byte.to_N_bounded b1) as Hbound1.
  change (7 + 7)%N with 14%N in *. change (2 ^ 7)%N with 128%N in *.
  change (2 ^ 14)%N with 16384%N in *.
  apply FromUvarint_from_spec in Hrec1
    as (b2 & rest2 & -> & [(Hb2 & -> & Hv & _)|(Hb2 & Hn2 & Hv2 & _)]);
    [| |reflexivity|change (2 ^ 14)%N with 16384%N; lia].
  { change (2 ^ 14)%N with 16384%N in Hv.
    destruct ty; simpl in Htag; try discriminate; injection Htag as <-;
      unfold multicodecKindEd25519PubKey, multicodecKindSecp256k1PubKey,
        multicodecKindEthPubKey in *; simpl.
    - exfalso. lia.
    - exfalso. lia.
    - assert (Byte.to_N b0 = Byte.to_N x81 /\ Byte.to_N b1 = Byte.to_N xde
              /\ Byte.to_N b2 = Byte.to_N x03)
        as (->%to_N_inj & ->%to_N_inj & ->%to_N_inj) by (simpl; lia).
      reflexivity. }
  exfalso. change (14 + 7)%N with 21%N in Hv2.
  change (2 ^ 21)%N with 2097152%N in Hv2.
  destruct ty; simpl in Htag; try discriminate;
    unfold multicodecKindEd25519PubKey, multicodecKindSecp256k1PubKey,
      multicodecKindEthPubKey in Hv2; lia.
Qed.

Lemma index_from_inv (c : ascii) (alpha : string) (i j : N) :
  Base58.index_from c alpha i = Some j ->
  (i <= j)%N /\ String.get (N.to_nat (j - i)) alpha = Some c.
Proof.
  revert i. induction alpha as [|a alpha IH]; intros i; simpl; [discriminate|].
  destruct (Ascii.eqb_spec a c) as [->|Hne].
  - intros [= <-]. rewrite N.sub_diag. split; [lia | reflexivity].
  - intros [Hle Hget]%IH. split; [lia|].
    replace (N.to_nat (j - i)) with (S (N.to_nat (j - (i + 1)))) by lia.
    exact Hget.
Qed.

Lemma get_lt_length (n : nat) (s : string) (c : ascii) :
  String.get n s = Some c -> (n < String.length s)%nat.
Proof.
  revert n. induction s as [|a s IH]; intros n; simpl; [discriminate|].
  destruct n as [|n]; [lia|]. intros H%IH. lia.
Qed.

Lemma encode_decode_digit (c : ascii) (d : N) :
  Base58.decode_digit c = Some d ->
  (d < 58)%N /\ Base58.encode_digit d = c.
Proof.
  intros [_ Hget]%index_from_inv. rewrite N.sub_0_r in Hget.
  split.
  - apply get_lt_length in Hget. simpl in Hget. lia.
  - unfold Base58.encode_digit. rewrite Hget. reflexivity.
Qed.

Lemma decode_digits_inv (cs : list ascii) (ds : list N) :
  Base58.decode_digits cs = Ok ds ->
  map Base58.encode_digit ds = cs /\ Forall (fun d => d < 58)%N ds.
Proof.
  revert ds. induction cs as [|c cs IH]; intros ds; simpl.
  - intros [= <-]. split; constructor.
  - destruct (_ <? _)%N; [discriminate|].
    destruct (Base58.decode_digit c) as [d|] eqn:Hd; [|discriminate].
    destruct (Base58.decode_digits cs) as [ds'|]; [|discriminate].
    intros [= <-]. destruct (IH ds' eq_refl) as [Hmap Hall].
    apply encode_decode_digit in Hd as [Hlt Henc].
    split; [simpl; congruence | constructor; assumption].
Qed.

Lemma zero_digits_split (ds : list N) :
  ds = (replicate (Base58.zero_digits ds) 0%N
          ++ drop (Base58.zero_digits ds) ds)%list /\
  Base58.normal (drop (Base58.zero_digits ds) ds).
Proof.
  induction ds as [|d ds [IH1 IH2]]; [split; [reflexivity | exact I]|].
  cbn [Base58.zero_digits]. destruct (N.eqb_spec d 0) as [->|Hd].
  - cbn [replicate drop app]. split; [f_equal; exact IH1 | exact IH2].
  - split; [reflexivity | exact Hd].
Qed.

Lemma to_N_byte_of_N (d : N) : (d < 256)%N -> Byte.to_N (byte_of_N d) = d.
Proof.
  intros Hd. unfold byte_of_N. rewrite N.mod_small by exact Hd.
  destruct (Byte.of_N d) as [b|] eqn:Hb.
  - apply Byte.to_of_N. exact Hb.
  - apply Byte.of_N_None_iff in Hb. lia.
Qed.

Lemma map_to_N_byte_of_N (ds : list N) :
  Forall (fun d => d < 256)%N ds -> map Byte.to_N (map byte_of_N ds) = ds.
Proof.
  induction 1 as [|d ds Hd _ IH]; [reflexivity|].
  simpl. rewrite to_N_byte_of_N, IH by exact Hd. reflexivity.
Qed.

Lemma zero_bytes_zeros (z : nat) (bs : bytes) :
  Base58.normal (map Byte.to_N bs) ->
  Base58.zero_bytes (replicate z x00 ++ bs) = z.
Proof.
  intros Hnorm. induction z as [|z IH]; simpl.
  - destruct bs as [|b bs]; [reflexivity|]. simpl in *.
    destruct (N.eqb_spec (Byte.to_N b) 0); [contradiction | reflexivity].
  - rewrite IH. reflexivity.
Qed.

(** [Encode(Decode(text)) = text]: a text has one decoding, and no other
    text shares it. *)
Lemma Base58_Encode_Decode (text : string) (bin : bytes) :
  Base58.Decode text = Ok bin -> Base58.Encode bin = text.
Proof.
  unfold Base58.Decode. destruct (String.eqb text ""); [discriminate|].
  destruct (Base58.decode_digits (list_ascii_of_string text)) as [ds|] eqn:Hds;
    [|discriminate].
  intros [= <-]. apply decode_digits_inv in Hds as [Hmap Hall].
  destruct (zero_digits_split ds) as [Hsplit Hnorm].
  set (z := Base58.zero_digits ds) in *. set (tail := drop z ds) in *.
  assert (Base58.value 58 ds = Base58.value 58 tail) as Hval
    by (rewrite Hsplit at 1; apply value_zeros).
  set (big := Base58.digits 256 (Base58.value 58 ds)).
  assert (Forall (fun d => d < 256)%N big) as Hbig by (apply digits_below; lia).
  assert (Base58.normal big) as Hbignorm by (apply digits_normal; lia).
  unfold Base58.Encode.
  rewrite zero_bytes_zeros by (rewrite map_to_N_byte_of_N; assumption).
  rewrite (map_app Byte.to_N), map_to_N_byte_of_N by exact Hbig.
  replace (map Byte.to_N (replicate z x00)) with (replicate z 0%N)
    by (clear; induction z; simpl; congruence).
  rewrite value_zeros. subst big. rewrite value_digits by lia.
  rewrite Hval, digits_value; [|lia|exact Hnorm|].
  - rewrite <- Hsplit, Hmap. apply string_of_list_ascii_of_string.
  - rewrite Hsplit in Hall. apply Forall_app in Hall as [_ Hall]. exact Hall.
Qed.

Section Canonical.
Context {curve : Curve} {codecs : BaseCodecs}.

(** A multibase text that decodes as base58btc is the marker [z] followed
    by the base58 text of the bytes. *)
Lemma Multibase_Decode_Base58BTC_inv (payload : string) (data : bytes) :
  Multibase.Decode payload = Ok (Base58BTC, data) ->
  payload = String "z" (Base58.Encode data).
Proof.
  destruct payload as [|c text]; [discriminate|].
  cbn [Multibase.Decode].
  destruct (Multibase.encoding_of_marker c) as [enc|] eqn:Hmark.
  - destruct enc; try discriminate;
      try (destruct (decode_base _ text); discriminate).
    destruct (Base58.Decode text) as [b|] eqn:Hdec; [|discriminate].
    intros [= <-]. apply Base58_Encode_Decode in Hdec as ->.
    f_equal. revert Hmark. unfold Multibase.encoding_of_marker.
    destruct c as [[] [] [] [] [] [] [] []]; try discriminate. reflexivity.
  - destruct (Strings.HasPrefix _ _); [|discriminate].
    destruct (decode_base _ _); discriminate.
Qed.

(** X9.  The URI of an Ed25519 key is canonical: a URI that [ParseKeyURI]
    reads as an Ed25519 key is the URI [FormatKeyURI] writes for that key, so
    no two URIs are read as the same Ed25519 key. *)
Theorem ParseKeyURI_Ed25519_canonical (uri : string) (k : bytes) :
  ParseKeyURI uri = Ok (Ed25519PublicKey k) ->
  value (FormatKeyURI (Ed25519PublicKey k)) = Some uri.
Proof.
  intros Hparse.
  destruct (Strings.HasPrefix uri "did:key:") eqn:Hpre;
    [|destruct (ParseKeyURI_needs_did_key_colon uri Hpre) as [H|H];
      rewrite H in Hparse; discriminate].
  apply HasPrefix_app in Hpre as [payload ->].
  rewrite (FormatKeyURI_supported (Ed25519PublicKey k) k [xed; x01] eq_refl eq_refl).
  revert Hparse. unfold ParseKeyURI. strip_did_key.
  destruct (Multibase.Decode payload) as [[enc data]|e] eqn:Hdec; [|discriminate].
  destruct (bool_decide_reflect (enc = Base58BTC)) as [->|Henc];
    [|discriminate].
  cbn [negb].
  destruct (Varint.FromUvarint data) as [[keyType n]|e] eqn:Hvar; [|discriminate].
  destruct (N.eqb_spec keyType multicodecKindEd25519PubKey) as [->|_].
  - unfold UnmarshalEd25519PublicKey.
    destruct (Nat.eqb (length (drop n data)) 32); [|discriminate].
    intros [= <-]. simpl.
    apply Multibase_Decode_Base58BTC_inv in Hdec as ->.
    rewrite (FromUvarint_tag_bytes data n Ed25519 [xed; x01] _ eq_refl eq_refl Hvar)
      at 2.
    reflexivity.
  - destruct (_ =? _)%N.
    { unfold UnmarshalSecp256k1PublicKey.
      destruct (ParsePubKey _); discriminate. }
    destruct (_ =? _)%N; [|discriminate].
    unfold UnmarshalEthPublicKey. destruct (ParsePubKey _); discriminate.
Qed.

End Canonical.

(** ** [anchor.go]: the resolver with the registry of [init()] *)

Section ResolverProperties.
Context {curve : Curve} {codecs : BaseCodecs}.

(** X10.  With the registry of [init()], a DID whose method is not [key] has
    no anchor method, and a DID of method [key] resolves to an anchor that
    carries that DID and the key [ParseKeyURI] reads from its URI, or fails
    with the parse error wrapped. *)
Theorem GetAnchorForDID_init (did : DID) :
  (Method did <> Some "key" ->
   GetAnchorForDID init_anchorMethods did = Err ErrNoAnchorMethod) /\
  (Method did = Some "key" ->
   GetAnchorForDID init_anchorMethods did
   = match ParseKeyURI (URI did) with
     | Ok pubk => Ok (NewAnchor did pubk)
     | Err e => Err (Wrap "parsing did key identifier" e)
     end).
Proof.
  unfold GetAnchorForDID, init_anchorMethods. split.
  - intros Hm. destruct (Method did) as [m|]; [|reflexivity]. simpl.
    rewrite lookup_singleton_ne; [reflexivity | congruence].
  - intros Hm. rewrite Hm. simpl. rewrite lookup_singleton_eq.
    unfold makeKeyAnchor, PublicKeyFromDID.
    rewrite bool_decide_eq_true_2 by exact Hm. simpl.
    destruct (ParseKeyURI (URI did)); reflexivity.
Qed.

(** X11.  The anchor [AnchorFromPublicKey] builds for a key of a supported
    type with canonical raw bytes is found again by the resolver from its
    DID alone: the resolved anchor has the same DID and a key of the same
    type and raw bytes. *)
Theorem GetAnchorForDID_AnchorFromPublicKey (pubk : PubKey) (raw : bytes) :
  Raw pubk = Ok raw ->
  canonical_raw (Type_ pubk) raw ->
  exists a a' : Anchor,
    value (AnchorFromPublicKey pubk) = Some a /\
    anchor_pubk a = pubk /\
    GetAnchorForDID init_anchorMethods (anchor_did a) = Ok a' /\
    anchor_did a' = anchor_did a /\
    Raw (anchor_pubk a') = Ok raw /\
    Type_ (anchor_pubk a') = Type_ pubk.
Proof.
  intros Hraw Hcanon.
  destruct (tag_bytes (Type_ pubk)) as [tag|] eqn:Htag;
    [|destruct (Type_ pubk); simpl in *; try discriminate; contradiction].
  destruct (unmarshal_canonical _ _ Hcanon) as (pubk' & Hun & Hraw' & Hty').
  set (d := {| URI := "did:key:z" ++ Base58.Encode (tag ++ raw)%list |}).
  exists (NewAnchor d pubk), (NewAnchor d pubk').
  unfold AnchorFromPublicKey, FromPublicKey.
  rewrite (FormatKeyURI_supported pubk raw tag Hraw Htag).
  split; [reflexivity|]. split; [reflexivity|].
  split; [|repeat split; assumption].
  assert (Method d = Some "key") as Hm
    by (unfold Method, d; cbn [URI]; rewrite Split_key_URI; reflexivity).
  unfold GetAnchorForDID, init_anchorMethods. cbn [anchor_did NewAnchor].
  rewrite Hm. simpl. rewrite lookup_singleton_eq.
  unfold makeKeyAnchor, PublicKeyFromDID.
  rewrite bool_decide_eq_true_2 by exact Hm. simpl.
  unfold d at 1. cbn [URI].
  rewrite (ParseKeyURI_FormatKeyURI pubk raw tag Hraw Htag), Hun. reflexivity.
Qed.

End ResolverProperties.

(** ** [context.go]: registry, cache and sweep together *)

Section TrustContextMore.
Context {curve : Curve} {codecs : BaseCodecs} {PrivKey : Type}.

Abbreviation world' := (World (PrivKey := PrivKey)).

(** X12.  [GetProvider] returns the provider last added under a DID, fails
    with [ErrNoProvider] for a DID with no provider, and changes nothing;
    [AddProvider] changes the entry of the provider's own DID only. *)
Theorem AddProvider_GetProvider (p : Provider) (w : world') :
  let w1 := snd (AddProvider p w) in
  fst (GetProvider (provider_did p) w1) = Ok p /\
  (forall d, d <> provider_did p ->
             fst (GetProvider d w1) = fst (GetProvider d w)) /\
  (forall d, providers (ctx w) !! d = None ->
             fst (GetProvider d w) = Err ErrNoProvider) /\
  (forall d, snd (GetProvider d w) = w) /\
  anchors (ctx w1) = anchors (ctx w).
Proof.
  unfold AddProvider, GetProvider, bind, get_ctx, set_providers, ret; simpl.
  repeat split.
  - rewrite lookup_insert_eq. reflexivity.
  - intros d Hd. rewrite lookup_insert_ne by congruence.
    destruct (providers (ctx w) !! d); reflexivity.
  - intros d ->. reflexivity.
  - intros d. destruct (providers (ctx w) !! d); reflexivity.
Qed.

(** X13.  After [AddAnchor(a)], [GetAnchor] of the anchor's DID returns [a]
    without calling the resolver, whatever was cached under that DID
    before. *)
Theorem AddAnchor_GetAnchor (a : Anchor) (w : world') :
  let w1 := snd (AddAnchor a w) in
  let out := GetAnchor (anchor_did a) w1 in
  fst out = Ok a /\
  resolved (snd out) = resolved w /\
  anchors (ctx w1) !! anchor_did a
  = Some {| anchor := a; expire := (clock w (reads w) + anchorEntryTTL)%Z |}.
Proof.
  unfold GetAnchor, getAnchor, AddAnchor, bind, get_ctx, time_Now,
    set_anchors, ret; simpl.
  rewrite lookup_insert_eq. simpl. repeat split.
Qed.

(** X14.  An anchor added at clock reading [t0] is removed by the next sweep
    exactly when the sweep reads a time more than one TTL after [t0]. *)
Theorem AddAnchor_then_sweep (a : Anchor) (w : world') :
  let t0 := clock w (reads w) in
  let t1 := clock w (S (reads w)) in
  let w2 := snd (gcAnchorEntries (snd (AddAnchor a w))) in
  anchors (ctx w2) !! anchor_did a
  = if (t0 + anchorEntryTTL <? t1)%Z then None
    else Some {| anchor := a; expire := (t0 + anchorEntryTTL)%Z |}.
Proof.
  unfold gcAnchorEntries, AddAnchor, bind, get_ctx, time_Now, set_anchors, ret;
    simpl.
  rewrite sweep_map_to_list, lookup_insert_eq. reflexivity.
Qed.

(** X15.  Two sweeps in a row, the clock not running backwards, leave what
    one sweep at the later time leaves. *)
Theorem gcAnchorEntries_twice (w : world') (k : DID) :
  (clock w (reads w) <= clock w (S (reads w)))%Z ->
  let w2 := snd (gcAnchorEntries (snd (gcAnchorEntries w))) in
  anchors (ctx w2) !! k
  = match anchors (ctx w) !! k with
    | Some e => if (expire e <? clock w (S (reads w)))%Z then None else Some e
    | None => None
    end.
Proof.
  intros Hclock.
  unfold gcAnchorEntries, bind, get_ctx, time_Now, set_anchors, ret; simpl.
  rewrite !sweep_map_to_list. unfold Before.
  destruct (anchors (ctx w) !! k) as [e|]; [|reflexivity].
  destruct (Z.ltb_spec (expire e) (clock w (reads w))) as [H1|H1].
  - destruct (Z.ltb_spec (expire e) (clock w (S (reads w)))); [reflexivity | lia].
  - reflexivity.
Qed.

(** X16.  [Anchors()] and [Providers()] list every DID of their map once and
    no other DID, and change nothing. *)
Theorem Anchors_Providers_list_keys (w : world') :
  (NoDup (fst (Anchors w)) /\
   (forall d, d ∈ fst (Anchors w) <-> is_Some (anchors (ctx w) !! d)) /\
   snd (Anchors w) = w) /\
  (NoDup (fst (Providers w)) /\
   (forall d, d ∈ fst (Providers w) <-> is_Some (providers (ctx w) !! d)) /\
   snd (Providers w) = w).
Proof.
  unfold Anchors, Providers, bind, get_ctx, ret; simpl.
  split; (split; [apply NoDup_fst_map_to_list|]); (split; [|reflexivity]);
    intros d; rewrite list_elem_of_fmap; split.
  - intros ([d' e] & -> & He%elem_of_map_to_list). eexists; exact He.
  - intros [e He]. exists (d, e). split; [reflexivity|].
    apply elem_of_map_to_list. exact He.
  - intros ([d' e] & -> & He%elem_of_map_to_list). eexists; exact He.
  - intros [e He]. exists (d, e). split; [reflexivity|].
    apply elem_of_map_to_list. exact He.
Qed.

(** X17.  [GetAnchor(did)] removes no entry, and leaves every entry other
    than that of [did] and that of the anchor it returns as it was. *)
Theorem GetAnchor_keeps_other_entries (did : DID) (w : world') (k : DID) :
  let out := GetAnchor did w in
  (is_Some (anchors (ctx w) !! k) -> is_Some (anchors (ctx (snd out)) !! k)) /\
  (k <> did ->
   (forall a, fst out = Ok a -> anchor_did a <> k) ->
   anchors (ctx (snd out)) !! k = anchors (ctx w) !! k).
Proof.
  unfold GetAnchor, getAnchor, AddAnchor, call_GetAnchorForDID, bind,
    get_ctx, time_Now, set_anchors, ret; simpl.
  destruct (anchors (ctx w) !! did) as [entry|] eqn:Hlook; simpl.
  - split.
    + intros Hk. rewrite lookup_insert. destruct (decide (did = k)); [eauto | exact Hk].
    + intros Hne _. rewrite lookup_insert_ne by congruence. reflexivity.
  - destruct (GetAnchorForDID (anchorMethods w) did) as [a|err]; simpl.
    + split.
      * intros Hk. rewrite lookup_insert.
        destruct (decide (anchor_did a = k)); [eauto | exact Hk].
      * intros _ Ha. rewrite lookup_insert_ne; [reflexivity|].
        apply Ha. reflexivity.
    + split; [auto | reflexivity].
Qed.

(** X18.  In a context with no entry for the DID of a key of a supported
    type with canonical raw bytes, and the key method registered,
    [GetAnchor] resolves the DID to an anchor with that DID and a key of the
    same type and raw bytes, caches it, and serves the next [GetAnchor] from
    the cache. *)
Theorem GetAnchor_resolves_key_DID (pubk : PubKey) (raw : bytes) (d : DID)
    (w : world') :
  Raw pubk = Ok raw ->
  canonical_raw (Type_ pubk) raw ->
  value (FromPublicKey pubk) = Some d ->
  anchorMethods w !! "key" = Some makeKeyAnchor ->
  anchors (ctx w) !! d = None ->
  exists a : Anchor,
    let w1 := snd (GetAnchor d w) in
    fst (GetAnchor d w) = Ok a /\
    anchor_did a = d /\
    Raw (anchor_pubk a) = Ok raw /\
    Type_ (anchor_pubk a) = Type_ pubk /\
    d ∈ fst (Anchors w1) /\
    fst (GetAnchor d w1) = Ok a /\
    resolved (snd (GetAnchor d w1)) = resolved w1.
Proof.
  intros Hraw Hcanon Hd Hreg Hmiss.
  destruct (tag_bytes (Type_ pubk)) as [tag|] eqn:Htag;
    [|destruct (Type_ pubk); simpl in *; try discriminate; contradiction].
  destruct (unmarshal_canonical _ _ Hcanon) as (pubk' & Hun & Hraw' & Hty').
  unfold FromPublicKey in Hd.
  rewrite (FormatKeyURI_supported pubk raw tag Hraw Htag) in Hd.
  injection Hd as <-.
  set (d := {| URI := "did:key:z" ++ Base58.Encode (tag ++ raw)%list |}) in *.
  assert (Method d = Some "key") as Hm
    by (unfold Method, d; cbn [URI]; rewrite Split_key_URI; reflexivity).
  assert (GetAnchorForDID (anchorMethods w) d = Ok (NewAnchor d pubk')) as Hres.
  { unfold GetAnchorForDID. rewrite Hm. simpl. rewrite Hreg.
    unfold makeKeyAnchor, PublicKeyFromDID.
    rewrite bool_decide_eq_true_2 by exact Hm. simpl.
    unfold d at 1. cbn [URI].
    rewrite (ParseKeyURI_FormatKeyURI pubk raw tag Hraw Htag), Hun. reflexivity. }
  assert (GetAnchor d w
          = (Ok (NewAnchor d pubk'),
             snd (AddAnchor (NewAnchor d pubk')
                    (snd (call_GetAnchorForDID d w))))) as Hout.
  { unfold GetAnchor, getAnchor, AddAnchor, call_GetAnchorForDID, bind,
      get_ctx, time_Now, set_anchors, ret; simpl.
    rewrite Hmiss. simpl. rewrite Hres. reflexivity. }
  exists (NewAnchor d pubk'). cbv zeta.
  assert (fst (GetAnchor d w) = Ok (NewAnchor d pubk')) as Hfst
    by (rewrite Hout; reflexivity).
  destruct (GetAnchor_twice d w (NewAnchor d pubk') Hfst eq_refl) as [H1 H2].
  repeat split; try assumption.
  rewrite Hout. unfold Anchors, AddAnchor, call_GetAnchorForDID, bind, get_ctx,
    time_Now, set_anchors, ret; simpl.
  apply list_elem_of_fmap. eexists (d, _). split; [reflexivity|].
  apply elem_of_map_to_list. apply lookup_insert_eq.
Qed.

End TrustContextMore.

(** ** The further properties at the reference instances *)

Lemma PublicKeyFromDID_FromPublicKey_witness :
  exists (d : DID) (pubk' : PubKey (curve := Reference.curve)),
    value (Reference.from_key_ref Reference.key7) = Some d /\
    PublicKeyFromDID (codecs := Reference.codecs) d = Ok pubk' /\
    Raw pubk' = Ok (replicate 32 x07) /\ Type_ pubk' = Type_ Reference.key7.
Proof.
  apply (PublicKeyFromDID_FromPublicKey (codecs := Reference.codecs)
           Reference.key7 (replicate 32 x07)); reflexivity.
Defined.

(** A stub and a library key with the same type and raw bytes share their
    URI. *)
Lemma FormatKeyURI_injective_witness :
  Type_ (ForeignPubKey (curve := Reference.curve) Ed25519 (Ok (replicate 32 x07)))
  = Type_ Reference.key7 /\
  Raw (ForeignPubKey (curve := Reference.curve) Ed25519 (Ok (replicate 32 x07)))
  = Raw Reference.key7.
Proof.
  apply (FormatKeyURI_injective (codecs := Reference.codecs)
           (ForeignPubKey Ed25519 (Ok (replicate 32 x07))) Reference.key7
           (URI Reference.did_key7)).
  - vm_compute; reflexivity.
  - vm_compute; reflexivity.
  - discriminate.
Defined.

Lemma ParseKeyURI_sound_witness :
  Strings.HasPrefix (URI Reference.did_key7) "did:key:" = true /\
  length (replicate 32 x07) = 32%nat.
Proof.
  apply (ParseKeyURI_sound (curve := Reference.curve) (codecs := Reference.codecs)
           (URI Reference.did_key7) Reference.key7).
  vm_compute; reflexivity.
Defined.

Lemma ParseKeyURI_Ed25519_wrong_size_witness :
  Reference.parse_ref "did:key:zK36" = Err ErrEd25519Size.
Proof.
  apply (ParseKeyURI_Ed25519_wrong_size (curve := Reference.curve)
           (codecs := Reference.codecs) [] "zK36").
  - discriminate.
  - vm_compute; reflexivity.
Defined.

Lemma ParseKeyURI_bad_base58_digit_witness :
  exists e, Reference.parse_ref "did:key:z!@#$"
            = Err (Wrap "decoding multibase" e).
Proof.
  apply (ParseKeyURI_bad_base58_digit (curve := Reference.curve)
           (codecs := Reference.codecs) "!@#$" "!"%char).
  - left. reflexivity.
  - reflexivity.
Defined.

Lemma ParseKeyURI_Ed25519_canonical_witness :
  value (Reference.format_ref Reference.key7) = Some (URI Reference.did_key7).
Proof.
  apply (ParseKeyURI_Ed25519_canonical (codecs := Reference.codecs)
           (URI Reference.did_key7) (replicate 32 x07)).
  vm_compute; reflexivity.
Defined.

Lemma GetAnchorForDID_AnchorFromPublicKey_witness :
  exists a a' : Anchor (curve := Reference.curve),
    value (AnchorFromPublicKey (codecs := Reference.codecs) Reference.key7)
    = Some a /\
    anchor_pubk a = Reference.key7 /\
    GetAnchorForDID (init_anchorMethods (codecs := Reference.codecs))
      (anchor_did a) = Ok a' /\
    anchor_did a' = anchor_did a /\
    Raw (anchor_pubk a') = Ok (replicate 32 x07) /\
    Type_ (anchor_pubk a') = Type_ Reference.key7.
Proof.
  apply (GetAnchorForDID_AnchorFromPublicKey (codecs := Reference.codecs)
           Reference.key7 (replicate 32 x07)); reflexivity.
Defined.

(** Sweeps at clock readings 1000 and 2000 over the entries of [world3]. *)
Lemma gcAnchorEntries_twice_witness :
  anchors (ctx (snd (gcAnchorEntries (snd (gcAnchorEntries Reference.world3)))))
    !! Reference.did_b
  = match anchors (ctx Reference.world3) !! Reference.did_b with
    | Some e => if (expire e <? 2000)%Z then None else Some e
    | None => None
    end.
Proof.
  apply (gcAnchorEntries_twice Reference.world3 Reference.did_b).
  vm_compute. discriminate.
Defined.

Lemma GetAnchor_resolves_key_DID_witness :
  exists a : Anchor (curve := Reference.curve),
    fst (GetAnchor Reference.did_key7 Reference.world0) = Ok a /\
    anchor_did a = Reference.did_key7 /\
    Raw (anchor_pubk a) = Ok (replicate 32 x07) /\
    Type_ (anchor_pubk a) = Type_ Reference.key7 /\
    Reference.did_key7 ∈ fst (Anchors Reference.world1) /\
    fst (GetAnchor Reference.did_key7 Reference.world1) = Ok a /\
    resolved (snd (GetAnchor Reference.did_key7 Reference.world1))
    = resolved Reference.world1.
Proof.
  apply (GetAnchor_resolves_key_DID (codecs := Reference.codecs)
           Reference.key7 (replicate 32 x07)
           Reference.did_key7 Reference.world0).
  - reflexivity.
  - reflexivity.
  - vm_compute; reflexivity.
  - vm_compute; reflexivity.
  - reflexivity.
Defined.

(** ** [context.go]: access and failure *)

Section TrustContextAccess.
Context {curve : Curve} {codecs : BaseCodecs} {PrivKey : Type}.

(** X19.  A [GetAnchor] that finds an entry, expired or not, keeps it from
    the next sweep unless the sweep reads a time more than one TTL after the
    access. *)
Theorem GetAnchor_hit_then_sweep (did : DID) (entry : anchorEntry)
    (w : World (PrivKey := PrivKey)) :
  anchors (ctx w) !! did = Some entry ->
  let t0 := clock w (reads w) in
  let t1 := clock w (S (reads w)) in
  let w2 := snd (gcAnchorEntries (snd (GetAnchor did w))) in
  anchors (ctx w2) !! did
  = if (t0 + anchorEntryTTL <? t1)%Z then None
    else Some {| anchor := anchor entry; expire := (t0 + anchorEntryTTL)%Z |}.
Proof.
  intros Hhit.
  unfold gcAnchorEntries, GetAnchor, getAnchor, bind, get_ctx, time_Now,
    set_anchors, ret; simpl.
  rewrite Hhit. simpl. rewrite sweep_map_to_list, lookup_insert_eq. reflexivity.
Qed.

(** X20.  A failed resolution is not cached: the context is left as it was,
    and the next [GetAnchor] for the same DID calls the resolver again. *)
Theorem GetAnchor_failure_not_cached (did : DID) (err : error)
    (w : World (PrivKey := PrivKey)) :
  fst (GetAnchor did w) = Err err ->
  let w1 := snd (GetAnchor did w) in
  ctx w1 = ctx w /\
  reads w1 = reads w /\
  fst (GetAnchor did w1) = Err err /\
  resolved (snd (GetAnchor did w1)) = (resolved w ++ [did; did])%list.
Proof.
  unfold GetAnchor, getAnchor, AddAnchor, call_GetAnchorForDID, bind,
    get_ctx, time_Now, set_anchors, ret; simpl.
  destruct (anchors (ctx w) !! did) as [entry|] eqn:Hlook; simpl;
    [discriminate|].
  destruct (GetAnchorForDID (anchorMethods w) did) as [a|e] eqn:Hres; simpl;
    [discriminate|].
  intros [= <-]. rewrite Hlook. simpl. rewrite Hres. simpl.
  rewrite <- app_assoc. repeat split.
Qed.

End TrustContextAccess.

(** The entry of [world3] that expired at 500, touched at clock reading 1000
    and swept at 2000. *)
Lemma GetAnchor_hit_then_sweep_witness :
  anchors (ctx (snd (gcAnchorEntries
                       (snd (GetAnchor Reference.did_a Reference.world3)))))
    !! Reference.did_a
  = Some {| anchor := NewAnchor Reference.did_a Reference.key7;
            expire := (1000 + anchorEntryTTL)%Z |}.
Proof.
  apply (GetAnchor_hit_then_sweep Reference.did_a
           (Reference.entry_at Reference.did_a 500%Z) Reference.world3).
  vm_compute; reflexivity.
Defined.

Lemma GetAnchor_failure_not_cached_witness :
  let w1 := snd (GetAnchor Reference.did_web Reference.world0) in
  ctx w1 = ctx Reference.world0 /\
  reads w1 = reads Reference.world0 /\
  fst (GetAnchor Reference.did_web w1)
  = Err (Wrap "get anchor for did" ErrNoAnchorMethod) /\
  resolved (snd (GetAnchor Reference.did_web w1))
  = (resolved Reference.world0 ++ [Reference.did_web; Reference.did_web])%list.
Proof.
  apply (GetAnchor_failure_not_cached Reference.did_web
           (Wrap "get anchor for did" ErrNoAnchorMethod) Reference.world0).
  vm_compute; reflexivity.
Defined.
